(** * theme-engine: the theme state reconciliation engine

    A shallow embedding of the color normalizer ([utils/colors.ts] and the
    provider's [normalizeColorValueToHslTriplet]), the preset validator
    ([utils/preset-validation.ts]), the preset registry, the mode
    reconciliation and the property applicator of
    [providers/UnifiedThemeProvider.tsx], and of the algorithm inlined in the
    pre-hydration script of [components/UnifiedThemeScript.tsx].

    Conventions of the embedding.
    - A JavaScript string is a [string] of ASCII code units; white space is
      the ASCII white space of the language (tab, line feed, vertical tab,
      form feed, carriage return, space).
    - A JavaScript Number is a binary64 [float] of the kernel.
    - A JavaScript object used as a record of strings is a [gmap string string];
      objects that the code shares and updates in place live in a heap and are
      named by a location.
    - The inline style of the document root is the finite map of the custom
      properties declared on it. *)

From Stdlib Require Import ZArith List String Ascii Bool Lia Floats Uint63.
From Stdlib Require Import DecimalString DecimalN DecimalPos DecimalFacts.
From stdpp Require Import base option list gmap strings.

Local Open Scope string_scope.
Local Open Scope list_scope.
Local Open Scope Z_scope.

Local Set Warnings "-clear-no-such-hyp,-register-all".

(** ** Strings of the language *)

Module JsString.

Definition isWhiteSpace (c : ascii) : bool :=
    match nat_of_ascii c with
    | 9%nat | 10%nat | 11%nat | 12%nat | 13%nat | 32%nat => true
    | _ => false
    end.

Fixpoint trimStart (s : string) : string :=
    match s with
    | String c rest => if isWhiteSpace c then trimStart rest else s
    | EmptyString => EmptyString
    end.

  (** [trimEnd] drops the white space that is followed by white space only. *)
Fixpoint trimEnd (s : string) : string :=
    match s with
    | EmptyString => EmptyString
    | String c rest =>
        match trimEnd rest with
        | EmptyString => if isWhiteSpace c then EmptyString else String c EmptyString
        | kept => String c kept
        end
    end.

Definition trim (s : string) : string := trimEnd (trimStart s).

Definition startsWith (s pre : string) : bool := String.prefix pre s.

  (** Truthiness of a string value: only the empty string is falsy. *)
Definition truthy (s : string) : bool :=
    match s with EmptyString => false | _ => true end.

  (** Truthiness of a possibly undefined string ([obj[key]]). *)
Definition truthyOpt (v : option string) : bool :=
    match v with Some s => truthy s | None => false end.

(** The double quote, as a string. *)
Definition quote : string := String (ascii_of_nat 34) EmptyString.

End JsString.

(** ** The document root's inline style ([root.style]) *)

Module Dom.

Abbreviation StyleDecl := (gmap string string).

Definition removeProperty (name : string) (style : StyleDecl) : StyleDecl :=
    delete name style.

  (** [style.setProperty(name, value)]: an empty value removes the
      declaration (CSSOM); any other value is recorded as written. *)
Definition setProperty (name value : string) (style : StyleDecl) : StyleDecl :=
    if decide (value = "") then delete name style else <[name := value]> style.

End Dom.

(** ** [types/presets.ts]: the fixed property set *)

Module Presets.

Definition colors : list string :=
    [ "background"; "foreground"; "card"; "card-foreground"; "popover"; "popover-foreground";
      "primary"; "primary-foreground"; "secondary"; "secondary-foreground";
      "muted"; "muted-foreground"; "accent"; "accent-foreground";
      "destructive"; "destructive-foreground"; "border"; "input"; "ring";
      "chart-1"; "chart-2"; "chart-3"; "chart-4"; "chart-5";
      "sidebar"; "sidebar-foreground"; "sidebar-primary"; "sidebar-primary-foreground";
      "sidebar-accent"; "sidebar-accent-foreground"; "sidebar-border"; "sidebar-ring";
      "accent-info"; "accent-info-foreground";
      "accent-success"; "accent-success-foreground";
      "accent-warning"; "accent-warning-foreground";
      "accent-danger"; "accent-danger-foreground";
      "accent-brand"; "accent-brand-foreground";
      "accent-feature"; "accent-feature-foreground";
      "accent-highlight"; "accent-highlight-foreground" ].

Definition typography : list string := [ "font-sans"; "font-serif"; "font-mono" ].

Definition layout : list string := [ "radius" ].

Definition shadows : list string :=
    [ "shadow-color"; "shadow-opacity"; "shadow-blur"; "shadow-spread";
      "shadow-offset-x"; "shadow-offset-y" ].

Definition spacing : list string := [ "letter-spacing"; "spacing" ].

  (** [[...colors, ...typography, ...layout, ...shadows, ...spacing]] *)
Definition ALL_CSS_PROPERTIES : list string :=
    colors ++ typography ++ layout ++ shadows ++ spacing.

End Presets.

(** ** [providers/UnifiedThemeProvider.tsx]: the property applicator

    [applyPresetColors] receives the colors object of a preset: two
    references, one per mode, to property maps that the caller keeps (the
    registry's [styles.light] and [styles.dark], or the parsed persisted
    state). The maps live in a heap; the applicator reads and updates them
    through their locations. The color normalizer is a parameter of this
    section and is instantiated further down. *)

Module Applicator.

Inductive ResolvedMode := light | dark.

Definition otherMode (mode : ResolvedMode) : ResolvedMode :=
    match mode with light => dark | dark => light end.

Abbreviation loc := positive.

Abbreviation PropertyMap := (gmap string string).
Abbreviation Heap := (gmap loc (gmap string string)).

  (** [ThemePreset["colors"]]: [{ light, dark }], either of which may be
      missing at run time. *)
Record PresetColors := { colorsLight : option loc; colorsDark : option loc }.

Definition modeMap (preset : PresetColors) (mode : ResolvedMode) : option loc :=
    match mode with light => colorsLight preset | dark => colorsDark preset end.

Record World := { heap : Heap; rootStyle : Dom.StyleDecl }.

  (** [preset[mode]], dereferenced. *)
Definition getColors (h : Heap) (preset : PresetColors) (mode : ResolvedMode)
    : option (loc * PropertyMap) :=
    c ← modeMap preset mode; colors ← h !! c; Some (c, colors).

Definition defaultValues : PropertyMap :=
    {[ "spacing" := "0.25rem"; "letter-spacing" := "normal" ]}.

Definition fontProperties : list string := [ "font-sans"; "font-serif"; "font-mono" ].

Definition cssVar (prop : string) : string := "--" +:+ prop.

  (** [CSS_PROPERTY_CATEGORIES.colors.includes(prop) || prop === "shadow-color"] *)
Definition isColorProperty (prop : string) : bool :=
    bool_decide (prop ∈ Presets.colors) || bool_decide (prop = "shadow-color").

Definition clearProperty (root : Dom.StyleDecl) (prop : string) : Dom.StyleDecl :=
    Dom.removeProperty (cssVar prop) root.

  (** One round of the font loop:
      [if (!(fontProp in colors) && fontProp in otherModeColors)
         colors[fontProp] = otherModeColors[fontProp]],
      an assignment into the object at [c]. *)
Definition inheritFont (c o : loc) (h : Heap) (fontProp : string) : Heap :=
    match h !! c, h !! o with
    | Some colors, Some otherModeColors =>
        match colors !! fontProp, otherModeColors !! fontProp with
        | None, Some v => <[c := <[fontProp := v]> colors]> h
        | _, _ => h
        end
    | _, _ => h
    end.

Section WithNormalizer.

Variable normalizeColorValueToHslTriplet : string -> string.

    (** One round of the write loop. *)
Definition applyProperty (colors : PropertyMap) (root : Dom.StyleDecl) (prop : string)
      : Dom.StyleDecl :=
      let value := colors !! prop in
      let value :=
        if negb (JsString.truthyOpt value) && JsString.truthyOpt (defaultValues !! prop)
        then defaultValues !! prop else value in
      match value with
      | Some v =>
          if JsString.truthy v then
            let v := if isColorProperty prop then normalizeColorValueToHslTriplet v else v in
            Dom.setProperty (cssVar prop) v root
          else root
      | None => root
      end.

Definition applyPresetColors (preset : option PresetColors) (mode : ResolvedMode)
        (w : World) : World :=
      match preset with
      | None => w                                     (* if (!preset) return *)
      | Some preset =>
          match getColors (heap w) preset mode with
          | None => w                                 (* if (!colors) return *)
          | Some (c, _) =>
              let root := foldl clearProperty (rootStyle w) Presets.ALL_CSS_PROPERTIES in
              let h :=
                match getColors (heap w) preset (otherMode mode) with
                | Some (o, _) => foldl (inheritFont c o) (heap w) fontProperties
                | None => heap w
                end in
              let colors := default ∅ (h !! c) in
              {| heap := h;
                 rootStyle := foldl (applyProperty colors) root Presets.ALL_CSS_PROPERTIES |}
          end
      end.


End WithNormalizer.

End Applicator.

(** ** Regular expressions

    The patterns of the source are transcribed as terms of [regex]; a
    [test] of a pattern anchored at both ends is a full match, decided by
    derivatives. *)

Module Regex.

Inductive regex :=
| Empty                                 (* matches nothing *)
| Eps                                   (* the empty string *)
| Chr (cls : ascii -> bool)             (* one character of a class *)
| Seq (r1 r2 : regex)
| Alt (r1 r2 : regex)
| Star (r : regex).

Fixpoint nullable (r : regex) : bool :=
  match r with
  | Empty => false
  | Eps => true
  | Chr _ => false
  | Seq r1 r2 => nullable r1 && nullable r2
  | Alt r1 r2 => nullable r1 || nullable r2
  | Star _ => true
  end.

Fixpoint deriv (c : ascii) (r : regex) : regex :=
  match r with
  | Empty => Empty
  | Eps => Empty
  | Chr cls => if cls c then Eps else Empty
  | Seq r1 r2 =>
      if nullable r1 then Alt (Seq (deriv c r1) r2) (deriv c r2)
      else Seq (deriv c r1) r2
  | Alt r1 r2 => Alt (deriv c r1) (deriv c r2)
  | Star r1 => Seq (deriv c r1) (Star r1)
  end.

(** [/^r$/.test(s)] *)
Fixpoint test (r : regex) (s : string) : bool :=
  match s with
  | EmptyString => nullable r
  | String c rest => test (deriv c r) rest
  end.

Definition Plus (r : regex) : regex := Seq r (Star r).

Fixpoint Rep (n : nat) (r : regex) : regex :=
  match n with O => Eps | S k => Seq r (Rep k r) end.

Definition inRange (lo hi : string) (c : ascii) : bool :=
  match lo, hi with
  | String l _, String h _ =>
      (nat_of_ascii l <=? nat_of_ascii c)%nat && (nat_of_ascii c <=? nat_of_ascii h)%nat
  | _, _ => false
  end.

Definition isDigit (c : ascii) : bool := inRange "0" "9" c.                 (* \d *)
Definition isLower (c : ascii) : bool := inRange "a" "z" c.
Definition isUpper (c : ascii) : bool := inRange "A" "Z" c.
Definition isWord (c : ascii) : bool :=                                      (* \w *)
  isLower c || isUpper c || isDigit c || Ascii.eqb c "_".

Definition toLower (c : ascii) : ascii :=
  if isUpper c then ascii_of_nat (nat_of_ascii c + 32) else c.

Fixpoint lowerCase (s : string) : string :=                                  (* toLowerCase() *)
  match s with
  | EmptyString => EmptyString
  | String c rest => String (toLower c) (lowerCase rest)
  end.

(** A literal, and a literal under the [i] flag. *)
Fixpoint Lit (s : string) : regex :=
  match s with
  | EmptyString => Eps
  | String c rest => Seq (Chr (Ascii.eqb c)) (Lit rest)
  end.

Fixpoint LitI (s : string) : regex :=
  match s with
  | EmptyString => Eps
  | String c rest => Seq (Chr (fun x => Ascii.eqb (toLower x) (toLower c))) (LitI rest)
  end.

Definition Digits : regex := Plus (Chr isDigit).                             (* \d+ *)
Definition Spaces : regex := Star (Chr JsString.isWhiteSpace).               (* \s* *)

End Regex.

(** ** Numbers of the language

    A Number is a binary64 [float]. Reading a decimal literal rounds its
    exact value to the nearest float (ties to even); printing a Number
    yields the shortest decimal that reads back as it (ECMAScript,
    Number::toString). Both go through the [spec_float] view of a float. *)

Module JsNumber.

(** *** From decimals to floats *)

(** The float nearest to [p/q]: the quotient is taken with 1080 binary
    places, below the last place of every binary64 number, and one more sticky
    bit records a non-zero remainder. *)
Definition roundRational (neg : bool) (p q : positive) : spec_float :=
  let (n, r) := Z.div_eucl (Z.shiftl (Zpos p) 1080) (Zpos q) in
  let m := 2 * n + (if r =? 0 then 0 else 1) in
  binary_normalize prec emax (if neg then - m else m) (-1081) neg.

(** The float nearest to [digits * 10^e10]. *)
Definition decimalToSF (neg : bool) (digits : N) (e10 : Z) : spec_float :=
  match digits with
  | N0 => S754_zero neg
  | Npos d =>
      if 0 <=? e10 then roundRational neg (d * Z.to_pos (10 ^ e10)) 1
      else roundRational neg d (Z.to_pos (10 ^ (- e10)))
  end.

Definition digitValue (c : ascii) : N := N.of_nat (nat_of_ascii c - 48).

(** The longest run of decimal digits at the head of [s], read onto [acc]:
    the number read, how many digits, and what follows. *)
Fixpoint readDigits (acc : N) (len : Z) (s : string) : N * Z * string :=
  match s with
  | String c rest =>
      if Regex.isDigit c then readDigits (10 * acc + digitValue c)%N (len + 1) rest
      else (acc, len, s)
  | EmptyString => (acc, len, s)
  end.

(** An exponent part [e±ddd] at the head of [s], or 0 when there is none. *)
Definition readExponent (s : string) : Z :=
  match s with
  | String c rest =>
      if Ascii.eqb c "e" || Ascii.eqb c "E" then
        let '(neg, body) :=
          match rest with
          | String "+" r => (false, r)
          | String "-" r => (true, r)
          | _ => (false, rest)
          end in
        let '(v, len, _) := readDigits 0 0 body in
        if len =? 0 then 0 else if neg then - Z.of_N v else Z.of_N v
      else 0
  | EmptyString => 0
  end.

(** The longest prefix of [s] that is an unsigned decimal literal
    ([ddd], [ddd.], [ddd.ddd], [.ddd], each with an optional exponent), as
    digits and a power of ten. *)
Definition readUnsigned (s : string) : option (N * Z) :=
  let '(ip, ilen, rest) := readDigits 0 0 s in
  match rest with
  | String "." rest' =>
      let '(all, flen, rest'') := readDigits ip 0 rest' in
      if (ilen =? 0) && (flen =? 0) then None
      else Some (all, readExponent rest'' - flen)
  | _ => if ilen =? 0 then None else Some (ip, readExponent rest)
  end.

(** [parseFloat(s)] *)
Definition parseFloat (s : string) : float :=
  let t := JsString.trimStart s in
  let '(neg, u) :=
    match t with
    | String "-" r => (true, r)
    | String "+" r => (false, r)
    | _ => (false, t)
    end in
  if String.prefix "Infinity" u then (if neg then neg_infinity else infinity)
  else
    match readUnsigned u with
    | Some (digits, e10) => SF2Prim (decimalToSF neg digits e10)
    | None => nan
    end.

(** [Number(s)] for a capture of [\d+]: a string of decimal digits. *)
Definition Number (s : string) : float := parseFloat s.

(** *** From floats to decimals *)

Definition decimalString (n : N) : string := NilEmpty.string_of_uint (N.to_uint n).

Definition decimalLength (n : N) : Z := Z.of_nat (String.length (decimalString n)).

Definition SFsame (x y : spec_float) : bool :=
  match x, y with
  | S754_zero a, S754_zero b => Bool.eqb a b
  | S754_infinity a, S754_infinity b => Bool.eqb a b
  | S754_nan, S754_nan => true
  | S754_finite a m e, S754_finite b m' e' => Bool.eqb a b && Pos.eqb m m' && (e =? e')
  | _, _ => false
  end.

(** Drop the trailing zeros of the digits into the exponent. *)
Fixpoint stripZeros (fuel : nat) (digits : N) (e10 : Z) : N * Z :=
  match fuel with
  | O => (digits, e10)
  | S fuel' =>
      if (0 <? digits)%N && (digits mod 10 =? 0)%N
      then stripZeros fuel' (digits / 10)%N (e10 + 1)
      else (digits, e10)
  end.

Section Shortest.

(** The positive float [m * 2^e]. *)
Variables (m : positive) (e : Z).

(** Its value as a fraction [num/den]. *)
Definition num : Z := if 0 <=? e then Zpos m * 2 ^ e else Zpos m.
Definition den : Z := if 0 <=? e then 1 else 2 ^ (- e).

(** Its exact decimal expansion [exactDigits * 10^exactExp]. *)
Definition exactDigits : N := if 0 <=? e then Z.to_N num else Z.to_N (Zpos m * 5 ^ (- e)).
Definition exactExp : Z := if 0 <=? e then 0 else e.

(** The position [n] of the decimal point: [10^(n-1) <= num/den < 10^n]. *)
Definition pointPosition : Z :=
  if den <=? num then decimalLength (Z.to_N (num / den))
  else 1 - decimalLength (Z.to_N (den / num)).

(** [floor (num/den / 10^e10)] *)
Definition scaledFloor (e10 : Z) : Z :=
  if 0 <=? e10 then num / (den * 10 ^ e10) else (num * 10 ^ (- e10)) / den.

Definition readsBack (c : N * Z) : bool :=
  SFsame (decimalToSF false c.1 c.2) (S754_finite false m e).

(** Whether [lo * 10^e10] is at least as close to the value as
    [(lo+1) * 10^e10]; on a tie the even one of the two is taken. *)
Definition lowerIsCloser (lo : Z) (e10 : Z) : bool :=
  let '(a, b) :=
    if 0 <=? e10 then (num, den * 10 ^ e10) else (num * 10 ^ (- e10), den) in
  (* value / 10^e10 = a / b; compare a/b - lo with lo + 1 - a/b *)
  match 2 * a ?= (2 * lo + 1) * b with
  | Lt => true
  | Eq => Z.even lo
  | Gt => false
  end.

(** The decimals of [k] digits next to the value that read back as it. *)
Definition candidate (k : Z) : option (N * Z) :=
  let e10 := pointPosition - k in
  let lo := scaledFloor e10 in
  let cLo := stripZeros (Z.to_nat k) (Z.to_N lo) e10 in
  let cHi := stripZeros (S (Z.to_nat k)) (Z.to_N (lo + 1)) e10 in
  match readsBack cLo, readsBack cHi with
  | true, true => Some (if lowerIsCloser lo e10 then cLo else cHi)
  | true, false => Some cLo
  | false, true => Some cHi
  | false, false => None
  end.

Fixpoint search (fuel : nat) (k : Z) : option (N * Z) :=
  match fuel with
  | O => None
  | S fuel' =>
      match candidate k with
      | Some c => Some c
      | None => search fuel' (k + 1)
      end
  end.

(** The shortest decimal that reads back as the float: the first hit of the
    search over the number of digits, which the exact expansion bounds. *)
Definition shortestDecimal : N * Z :=
  match search (Z.to_nat (decimalLength exactDigits)) 1 with
  | Some c => c
  | None => (exactDigits, exactExp)
  end.

End Shortest.

Fixpoint zeros (n : nat) : string :=
  match n with O => EmptyString | S k => String "0" (zeros k) end.

Definition substring (from len : nat) (s : string) : string := String.substring from len s.

(** The text of the positive number [digits * 10^e10] (Number::toString,
    steps 6 to 10). *)
Definition render (digits : N) (e10 : Z) : string :=
  let ds := decimalString digits in
  let k := Z.of_nat (String.length ds) in
  let n := e10 + k in
  if (k <=? n) && (n <=? 21) then ds +:+ zeros (Z.to_nat (n - k))
  else if (0 <? n) && (n <=? 21) then
    substring 0 (Z.to_nat n) ds +:+ "." +:+ substring (Z.to_nat n) (Z.to_nat (k - n)) ds
  else if (-6 <? n) && (n <=? 0) then "0." +:+ zeros (Z.to_nat (- n)) +:+ ds
  else
    let exponent :=
      (if 0 <=? n - 1 then "e+" else "e-") +:+ decimalString (Z.to_N (Z.abs (n - 1))) in
    if k =? 1 then ds +:+ exponent
    else substring 0 1 ds +:+ "." +:+ substring 1 (Z.to_nat (k - 1)) ds +:+ exponent.

Definition renderSF (x : spec_float) : string :=
  match x with
  | S754_nan => "NaN"
  | S754_zero _ => "0"
  | S754_infinity neg => if neg then "-Infinity" else "Infinity"
  | S754_finite neg m e =>
      let c := shortestDecimal m e in
      (if neg then "-" else "") +:+ render c.1 c.2
  end.

(** [String(x)], [`${x}`] *)
Definition toString (x : float) : string := renderSF (Prim2SF x).

(** *** Arithmetic helpers *)

(** [x || 0] *)
Definition orZero (x : float) : float :=
  if PrimFloat.is_nan x || PrimFloat.is_zero x then 0%float else x.

Definition isPositiveZero (x : float) : bool :=
  PrimFloat.is_zero x && negb (PrimFloat.get_sign x).

Definition isNegativeZero (x : float) : bool :=
  PrimFloat.is_zero x && PrimFloat.get_sign x.

(** [Math.max(...values)]: NaN if any value is; otherwise the running
    highest from -∞, where +0 is above -0. *)
Definition Math_max (values : list float) : float :=
  if existsb PrimFloat.is_nan values then nan
  else
    fold_left (fun highest number =>
      if isPositiveZero number && isNegativeZero highest then number
      else if (highest <? number)%float then number else highest)
      values neg_infinity.

(** [Math.min(...values)] *)
Definition Math_min (values : list float) : float :=
  if existsb PrimFloat.is_nan values then nan
  else
    fold_left (fun lowest number =>
      if isNegativeZero number && isPositiveZero lowest then number
      else if (number <? lowest)%float then number else lowest)
      values infinity.

(** [floor(x)] for [0 <= x < 2^53], as a machine integer: the mantissa
    shifted by the exponent. *)
Definition floorInt (x : float) : int :=
  if (x <? 1)%float then 0%uint63
  else
    let (f, ex) := frshiftexp x in
    Uint63.lsr (normfr_mantissa f) (Uint63.sub 2154%uint63 ex).

(** [Math.round(x)]: the integer nearest to [x], a tie going up. *)
Definition Math_round (x : float) : float :=
  if PrimFloat.is_nan x || PrimFloat.is_infinity x then x
  else if (4503599627370496 <=? PrimFloat.abs x)%float then x      (* 2^52 and above: integral *)
  else if PrimFloat.get_sign x then
    (* x = -a: the nearest integer to a, a tie going down, negated *)
    let a := PrimFloat.abs x in
    let f := floorInt a in
    let up := (0.5 <? a - of_uint63 f)%float in
    (- of_uint63 (if up then Uint63.add f 1%uint63 else f))%float
  else
    let f := floorInt x in
    let up := (0.5 <=? x - of_uint63 f)%float in
    of_uint63 (if up then Uint63.add f 1%uint63 else f).

(** [Number.isFinite(x)] *)
Definition isFinite (x : float) : bool :=
  negb (PrimFloat.is_nan x || PrimFloat.is_infinity x).

Definition hexDigitValue (c : ascii) : option N :=
  if Regex.isDigit c then Some (N.of_nat (nat_of_ascii c - 48))
  else if Regex.inRange "a" "f" (Regex.toLower c)
       then Some (N.of_nat (nat_of_ascii (Regex.toLower c) - 87))
       else None.

Fixpoint readHexDigits (acc : N) (len : Z) (s : string) : N * Z :=
  match s with
  | String c rest =>
      match hexDigitValue c with
      | Some v => readHexDigits (16 * acc + v)%N (len + 1) rest
      | None => (acc, len)
      end
  | EmptyString => (acc, len)
  end.

(** [parseInt(s, 16)] *)
Definition parseInt16 (s : string) : float :=
  let t := JsString.trimStart s in
  let '(neg, u) :=
    match t with
    | String "-" r => (true, r)
    | String "+" r => (false, r)
    | _ => (false, t)
    end in
  let u :=
    match u with
    | String "0" (String x r) => if Ascii.eqb x "x" || Ascii.eqb x "X" then r else u
    | _ => u
    end in
  let '(v, len) := readHexDigits 0 0 u in
  if len =? 0 then nan else SF2Prim (decimalToSF neg v 0).

End JsNumber.

(** ** Values of the language, for data that is not typed at run time *)

Module JsValue.

Inductive t :=
| JUndefined
| JNull
| JBool (b : bool)
| JNumber (x : float)
| JString (s : string)
| JObject (fields : list (string * t)).   (* own properties, in enumeration order *)

(** [!!v] *)
Definition truthy (v : t) : bool :=
  match v with
  | JUndefined | JNull => false
  | JBool b => b
  | JNumber x => negb (PrimFloat.is_nan x || PrimFloat.is_zero x)
  | JString s => JsString.truthy s
  | JObject _ => true
  end.

(** [typeof v === 'object'] *)
Definition isObject (v : t) : bool :=
  match v with JNull | JObject _ => true | _ => false end.

(** [typeof v === 'string'] *)
Definition isString (v : t) : bool :=
  match v with JString _ => true | _ => false end.

Fixpoint assoc (key : string) (fields : list (string * t)) : t :=
  match fields with
  | [] => JUndefined
  | (k, v) :: rest => if String.eqb k key then v else assoc key rest
  end.

(** [v[key]] for an object [v]. *)
Definition get (v : t) (key : string) : t :=
  match v with JObject fields => assoc key fields | _ => JUndefined end.

(** [Object.entries(v)] *)
Definition entries (v : t) : list (string * t) :=
  match v with JObject fields => fields | _ => [] end.

End JsValue.

(** ** [utils/preset-validation.ts] *)

Module Validation.
Import Regex JsValue.

Record ValidationResult := { isValid : bool; errors : list string; warnings : list string }.

Definition REQUIRED_PROPERTIES : list string :=
  [ "background"; "foreground"; "primary"; "primary-foreground";
    "secondary"; "secondary-foreground"; "card"; "card-foreground" ].

Definition RECOMMENDED_PROPERTIES : list string :=
  [ "border"; "input"; "ring"; "muted"; "muted-foreground"; "accent"; "accent-foreground";
    "destructive"; "destructive-foreground"; "popover"; "popover-foreground" ].

Definition isHexDigit (c : ascii) : bool :=
  isDigit c || inRange "a" "f" (toLower c).

(** [/^#([0-9a-f]{3}|[0-9a-f]{6}|[0-9a-f]{8})$/i] *)
Definition hexPattern : regex :=
  Seq (Lit "#") (Alt (Rep 3 (Chr isHexDigit)) (Alt (Rep 6 (Chr isHexDigit)) (Rep 8 (Chr isHexDigit)))).

(** [/^hsl\(\s*\d+\s*,\s*\d+%\s*,\s*\d+%\s*\)$/i] *)
Definition hslPattern : regex :=
  Seq (LitI "hsl(") (Seq Spaces (Seq Digits (Seq Spaces (Seq (Lit ",") (Seq Spaces
  (Seq Digits (Seq (Lit "%") (Seq Spaces (Seq (Lit ",") (Seq Spaces
  (Seq Digits (Seq (Lit "%") (Seq Spaces (Lit ")")))))))))))))).

(** [/^rgb\(\s*\d+\s*,\s*\d+\s*,\s*\d+\s*\)$/i] *)
Definition rgbPattern : regex :=
  Seq (LitI "rgb(") (Seq Spaces (Seq Digits (Seq Spaces (Seq (Lit ",") (Seq Spaces
  (Seq Digits (Seq Spaces (Seq (Lit ",") (Seq Spaces
  (Seq Digits (Seq Spaces (Lit ")")))))))))))).

(** [/^var\(--[\w-]+\)$/i] *)
Definition varPattern : regex :=
  Seq (LitI "var(--") (Seq (Plus (Chr (fun c => isWord c || Ascii.eqb c "-"))) (Lit ")")).

Definition cssColors : list string :=
  [ "transparent"; "inherit"; "currentcolor";
    "black"; "white"; "red"; "green"; "blue";
    "yellow"; "orange"; "purple"; "pink"; "gray"; "grey" ].

(** The syntaxes the recognizer names: the five tests of [isValidColorValue]. *)
Definition recognizedColorSyntax (value : string) : bool :=
  let trimmed := JsString.trim value in
  test hexPattern trimmed || test hslPattern trimmed || test rgbPattern trimmed
  || test varPattern trimmed || existsb (String.eqb (lowerCase trimmed)) cssColors.

Definition isValidColorValue (value : string) : bool :=
  let trimmed := JsString.trim value in
  if test hexPattern trimmed then true
  else if test hslPattern trimmed then true
  else if test rgbPattern trimmed then true
  else if test varPattern trimmed then true
  else if existsb (String.eqb (lowerCase trimmed)) cssColors then true
  else true.   (* "it might still be valid ... let the browser handle validation" *)

Definition missingRequired (pre mode prop : string) : string :=
  pre +:+ " Missing required " +:+ mode +:+ " property: " +:+ prop.

Definition missingRecommended (pre mode prop : string) : string :=
  pre +:+ " Missing recommended " +:+ mode +:+ " property: " +:+ prop.

Definition maybeInvalidColor (pre mode key value : string) : string :=
  pre +:+ " " +:+ mode +:+ "." +:+ key +:+ " may not be a valid color: "
      +:+ JsString.quote +:+ value +:+ JsString.quote.

(** One round of [for (const mode of modes)]: the errors and the warnings it pushes. *)
Definition validateMode (pre : string) (styles : t) (mode : string)
  : list string * list string :=
  let modeStyles := get styles mode in
  if negb (truthy modeStyles) || negb (isObject modeStyles) then
    ([pre +:+ " Must have " +:+ mode +:+ " mode styles"], [])
  else
    let required :=
      flat_map (fun prop =>
        if negb (truthy (get modeStyles prop)) || negb (isString (get modeStyles prop))
        then [missingRequired pre mode prop] else []) REQUIRED_PROPERTIES in
    let recommended :=
      flat_map (fun prop =>
        if negb (truthy (get modeStyles prop))
        then [missingRecommended pre mode prop] else []) RECOMMENDED_PROPERTIES in
    let colorWarnings :=
      flat_map (fun kv : string * t =>
        match kv.2 with
        | JString value =>
            if negb (String.eqb (JsString.trim value) "") then
              if negb (isValidColorValue value)
              then [maybeInvalidColor pre mode kv.1 value] else []
            else []
        | _ => []
        end) (entries modeStyles) in
    (required, recommended ++ colorWarnings).

(** [presetId ? `Preset "${presetId}":` : 'Preset:'] *)
Definition prefix (presetId : option string) : string :=
  match presetId with
  | Some id =>
      if JsString.truthy id
      then "Preset " +:+ JsString.quote +:+ id +:+ JsString.quote +:+ ":" else "Preset:"
  | None => "Preset:"
  end.

Definition validateTweakCNPreset (preset : t) (presetId : option string) : ValidationResult :=
  let pre := prefix presetId in
  if negb (truthy preset) || negb (isObject preset) then
    {| isValid := false; errors := [pre +:+ " Must be an object"]; warnings := [] |}
  else
    let label := get preset "label" in
    let labelErrors :=
      if negb (truthy label) || negb (isString label)
         || match label with JString s => String.eqb (JsString.trim s) "" | _ => false end
      then [pre +:+ " Must have a non-empty label"] else [] in
    let styles := get preset "styles" in
    if negb (truthy styles) || negb (isObject styles) then
      {| isValid := false;
         errors := labelErrors ++ [pre +:+ " Must have a styles object"];
         warnings := [] |}
    else
      let l := validateMode pre styles "light" in
      let d := validateMode pre styles "dark" in
      let errs := labelErrors ++ l.1 ++ d.1 in
      {| isValid := Nat.eqb (length errs) 0; errors := errs; warnings := l.2 ++ d.2 |}.

(** [/^[a-z0-9-_]+$/] *)
Definition idPattern : regex :=
  Plus (Chr (fun c => isLower c || isDigit c || Ascii.eqb c "-" || Ascii.eqb c "_")).

(** One round of [for (const [id, preset] of Object.entries(customPresets))]. *)
Definition validateEntry (entry : string * t) : list string * list string :=
  let id := entry.1 in
  if negb (JsString.truthy id) || String.eqb (JsString.trim id) "" then
    (["Preset ID must be a non-empty string"], [])
  else
    let idWarning :=
      if negb (test idPattern id)
      then ["Preset ID " +:+ JsString.quote +:+ id +:+ JsString.quote
            +:+ " should only contain lowercase letters, numbers, hyphens, and underscores"]
      else [] in
    let result := validateTweakCNPreset entry.2 (Some id) in
    (errors result, idWarning ++ warnings result).

Definition validateCustomPresets (customPresets : t) : ValidationResult :=
  if negb (truthy customPresets) || negb (isObject customPresets) then
    {| isValid := false; errors := ["Custom presets must be an object"]; warnings := [] |}
  else
    let rounds := map validateEntry (entries customPresets) in
    let allErrors := flat_map fst rounds in
    {| isValid := Nat.eqb (length allErrors) 0;
       errors := allErrors;
       warnings := flat_map snd rounds |}.

End Validation.

(** ** [providers/UnifiedThemeProvider.tsx]: the preset registry

    [tweakcnPresets], the built-in collection of [data/tweakcn-presets.ts],
    is a parameter. *)

Module Registry.
Import JsValue Validation.

Abbreviation PresetRecord := (gmap string JsValue.t).

(** [Object.assign(target, source)] *)
Definition assign (target : PresetRecord) (source : list (string * t)) : PresetRecord :=
  foldl (fun merged kv => <[kv.1 := kv.2]> merged) target source.

Section WithBuiltIns.

Variable tweakcnPresets : PresetRecord.

Definition availablePresets (normalizedCustomPresets : list (string * t)) : PresetRecord :=
  let merged := tweakcnPresets in      (* Object.assign({}, tweakcnPresets) *)
  if (0 <? length normalizedCustomPresets)%nat then
    let validationResult := validateCustomPresets (JObject normalizedCustomPresets) in
    if isValid validationResult || Nat.eqb (length (errors validationResult)) 0
    then assign merged normalizedCustomPresets
    else merged
  else merged.

Definition builtInPresets (normalizedCustomPresets : list (string * t)) : PresetRecord :=
  tweakcnPresets.

(** [availablePresets[id] || null] *)
Definition getAvailablePresetById (normalizedCustomPresets : list (string * t)) (id : string)
  : option t :=
  match availablePresets normalizedCustomPresets !! id with
  | Some preset => if truthy preset then Some preset else None
  | None => None
  end.

End WithBuiltIns.

End Registry.

(** ** [providers/UnifiedThemeProvider.tsx]: mode state

    The provider keeps [mode] and [resolvedMode] as strings: what it reads
    from storage is cast to [Mode], not checked. *)

Module ModeState.

(** [localStorage]: [None] when reading it throws. *)
Abbreviation Storage := (option (gmap string string)).

Record Environment := {
  storage : Storage;
  prefersDark : bool        (* matchMedia("(prefers-color-scheme: dark)").matches *)
}.

Definition THEME_STORAGE_KEY : string := "theme-engine-theme".

Definition getSystemTheme (env : Environment) : string :=
  if prefersDark env then "dark" else "light".

(** [(localStorage.getItem(storageKey) as Mode) || null], [null] if it throws. *)
Definition getStoredMode (env : Environment) (storageKey : string) : option string :=
  match storage env with
  | Some items =>
      match items !! storageKey with
      | Some stored => if JsString.truthy stored then Some stored else None
      | None => None
      end
  | None => None
  end.

Record State := { mode : string; resolvedMode : string }.

(** The two [useState] initializers. *)
Definition initialState (defaultMode : string) : State :=
  {| mode := defaultMode;
     resolvedMode := if String.eqb defaultMode "dark" then "dark" else "light" |}.

(** Effect "load persisted mode after hydration". *)
Definition loadPersistedMode (env : Environment) (modeStorageKey : string) (st : State) : State :=
  match getStoredMode env modeStorageKey with
  | Some stored => {| mode := stored; resolvedMode := resolvedMode st |}
  | None => st
  end.

(** Effect "update resolved mode when mode or system preference changes". *)
Definition updateResolvedMode (env : Environment) (st : State) : State :=
  if String.eqb (mode st) "system"
  then {| mode := mode st; resolvedMode := getSystemTheme env |}
  else {| mode := mode st; resolvedMode := mode st |}.

(** The state once the effects of the mount have run: both effects run on
    the initial state, and the resolved-mode effect runs again for the mode
    the first one set. *)
Definition reconcile (env : Environment) (defaultMode modeStorageKey : string) : State :=
  let st := initialState defaultMode in
  let st := loadPersistedMode env modeStorageKey (updateResolvedMode env st) in
  updateResolvedMode env st.

(** The classes the "apply mode to document" effect leaves on the root:
    [classList.remove("light", "dark"); classList.add(resolvedMode)]. *)
Definition applyModeClass (classList : list string) (st : State) : list string :=
  let kept := filter (fun c => negb (String.eqb c "light" || String.eqb c "dark")) classList in
  if existsb (String.eqb (resolvedMode st)) kept then kept else kept ++ [resolvedMode st].

(** The mode restoration of the pre-hydration script
    ([components/UnifiedThemeScript.tsx]). *)
Definition scriptMode (env : Environment) (defaultMode modeStorageKey : string) : State :=
  let storedMode :=
    match storage env with Some items => items !! modeStorageKey | None => None end in
  let isValidMode :=
    match storedMode with
    | Some s => String.eqb s "light" || String.eqb s "dark" || String.eqb s "system"
    | None => false
    end in
  let mode := if isValidMode then default defaultMode storedMode else defaultMode in
  let systemMode := if prefersDark env then "dark" else "light" in
  {| mode := mode; resolvedMode := if String.eqb mode "system" then systemMode else mode |}.

Definition isValidMode (s : string) : bool :=
  String.eqb s "light" || String.eqb s "dark" || String.eqb s "system".

End ModeState.

(** ** [utils/colors.ts] *)

Module Colors.
Import JsString JsNumber.

Record HSLColor := { h : float; s : float; l : float }.

Record RGBColor := { r : float; g : float; b : float }.

(** [str.replace(/hsl\(|\)/g, '')]; [skip] counts the characters of a match
    still to be dropped. *)
Fixpoint stripHslParens (skip : nat) (str : string) : string :=
  match str with
  | EmptyString => EmptyString
  | String c rest =>
      match skip with
      | S k => stripHslParens k rest
      | O =>
          if String.prefix "hsl(" str then stripHslParens 3 rest
          else if Ascii.eqb c ")" then stripHslParens 0 rest
          else String c (stripHslParens 0 rest)
      end
  end.

(** [str.replace(/[,%]/g, ' ')] *)
Fixpoint blankCommaPercent (str : string) : string :=
  match str with
  | EmptyString => EmptyString
  | String c rest =>
      String (if Ascii.eqb c "," || Ascii.eqb c "%" then " "%char else c)
             (blankCommaPercent rest)
  end.

(** [str.split(/\s+/).filter(Boolean)] *)
Fixpoint splitWhiteSpace (str : string) : list string :=
  match str with
  | EmptyString => []
  | String c rest =>
      if isWhiteSpace c then splitWhiteSpace rest
      else
        match rest with
        | EmptyString => [String c EmptyString]
        | String c' _ =>
            if isWhiteSpace c' then String c EmptyString :: splitWhiteSpace rest
            else
              match splitWhiteSpace rest with
              | w :: ws => String c w :: ws
              | [] => [String c EmptyString]
              end
        end
  end.

Definition parseHSL (hslString : string) : option HSLColor :=
  let cleaned := trim (blankCommaPercent (stripHslParens 0 hslString)) in
  match splitWhiteSpace cleaned with
  | [p0; p1; p2] =>
      let h := orZero (parseFloat p0) in
      let s := orZero (parseFloat p1) in
      let l := orZero (parseFloat p2) in
      Some {| h := Math_max [0%float; Math_min [360%float; h]];
              s := Math_max [0%float; Math_min [100%float; s]];
              l := Math_max [0%float; Math_min [100%float; l]] |}
  | _ => None
  end.

(** [str.replace('#', '')]: the first occurrence only. *)
Fixpoint removeFirstHash (str : string) : string :=
  match str with
  | EmptyString => EmptyString
  | String c rest => if Ascii.eqb c "#" then rest else String c (removeFirstHash rest)
  end.

(** [hex.split('').map(char => char + char).join('')] *)
Fixpoint doubleChars (str : string) : string :=
  match str with
  | EmptyString => EmptyString
  | String c rest => String c (String c (doubleChars rest))
  end.

Definition parseHex (hexString : string) : option RGBColor :=
  let hex := removeFirstHash hexString in
  let hex := if Nat.eqb (String.length hex) 3 then doubleChars hex else hex in
  if negb (Nat.eqb (String.length hex) 6) then None
  else
    let r := parseInt16 (String.substring 0 2 hex) in
    let s := parseInt16 (String.substring 2 2 hex) in
    let l := parseInt16 (String.substring 4 2 hex) in
    if PrimFloat.is_nan r || PrimFloat.is_nan s || PrimFloat.is_nan l then None
    else Some {| r := r; g := s; b := l |}.

Definition rgbToHsl (rgb : RGBColor) : HSLColor :=
  let r := (r rgb / 255)%float in
  let g := (g rgb / 255)%float in
  let b := (b rgb / 255)%float in
  let max := Math_max [r; g; b] in
  let min := Math_min [r; g; b] in
  let diff := (max - min)%float in
  let l := ((max + min) / 2)%float in
  let '(h, s) :=
    if negb (diff =? 0)%float then
      let s := if (0.5 <? l)%float then (diff / (2 - max - min))%float
               else (diff / (max + min))%float in
      let h :=
        if (max =? r)%float then ((g - b) / diff + (if (g <? b)%float then 6 else 0))%float
        else if (max =? g)%float then ((b - r) / diff + 2)%float
        else if (max =? b)%float then ((r - g) / diff + 4)%float
        else 0%float in
      ((h / 6)%float, s)
    else (0%float, 0%float) in
  {| h := Math_round (h * 360)%float;
     s := Math_round (s * 100)%float;
     l := Math_round (l * 100)%float |}.

Definition formatHSL (hsl : HSLColor) (includeHslWrapper : bool) : string :=
  let values := toString (h hsl) +:+ " " +:+ toString (s hsl) +:+ "% "
                +:+ toString (l hsl) +:+ "%" in
  if includeHslWrapper then "hsl(" +:+ values +:+ ")" else values.

End Colors.

(** ** The probe of the computed style

    [getComputedStyle(probe).color], for a probe whose [style.color] was set
    to the given text, is what the environment says; [None] stands for an
    exception. *)

Module Probe.
Import JsString.

Fixpoint takeDigits (str : string) : string * string :=
  match str with
  | String c rest =>
      if Regex.isDigit c
      then let (ds, after) := takeDigits rest in (String c ds, after)
      else (EmptyString, str)
  | EmptyString => (EmptyString, EmptyString)
  end.

(** The text after [pre] at the head of [str], letters compared without case. *)
Fixpoint afterPrefixI (pre str : string) : option string :=
  match pre, str with
  | EmptyString, _ => Some str
  | String p pre', String c rest =>
      if Ascii.eqb (Regex.toLower p) (Regex.toLower c) then afterPrefixI pre' rest else None
  | String _ _, EmptyString => None
  end.

(** [(\d+),\s*(\d+),\s*(\d+)] at the head of [str]. *)
Definition matchChannels (str : string) : option (string * string * string) :=
  let (d1, rest) := takeDigits str in
  match d1, rest with
  | String _ _, String "," rest =>
      let (d2, rest) := takeDigits (trimStart rest) in
      match d2, rest with
      | String _ _, String "," rest =>
          let (d3, _) := takeDigits (trimStart rest) in
          match d3 with
          | String _ _ => Some (d1, d2, d3)
          | EmptyString => None
          end
      | _, _ => None
      end
  | _, _ => None
  end.

(** [/rgba?\((\d+),\s*(\d+),\s*(\d+)/i] at the head of [str]. *)
Definition matchRgbHere (str : string) : option (string * string * string) :=
  match afterPrefixI "rgba(" str with
  | Some rest => matchChannels rest
  | None =>
      match afterPrefixI "rgb(" str with
      | Some rest => matchChannels rest
      | None => None
      end
  end.

(** [str.match(/rgba?\((\d+),\s*(\d+),\s*(\d+)/i)]: the leftmost match. *)
Fixpoint matchRgb (str : string) : option (string * string * string) :=
  match matchRgbHere str with
  | Some groups => Some groups
  | None =>
      match str with
      | String _ rest => matchRgb rest
      | EmptyString => None
      end
  end.

End Probe.

(** ** [providers/UnifiedThemeProvider.tsx]: the runtime normalizer and applicator *)

Module Provider.
Import JsString JsNumber.

Section WithEnvironment.

(** [typeof document !== "undefined"] *)
Variable hasDocument : bool.
Variable computedColor : string -> option string.

Definition normalizeColorValueToHslTriplet (value : string) : string :=
  let trimmed := trim value in
  match Colors.parseHSL trimmed with
  | Some parsedHsl => Colors.formatHSL parsedHsl false
  | None =>
      match Colors.parseHex trimmed with
      | Some parsedRgb => Colors.formatHSL (Colors.rgbToHsl parsedRgb) false
      | None =>
          if hasDocument then
            if startsWith trimmed "var(" then trimmed
            else
              match computedColor trimmed with
              | Some computed =>
                  match Probe.matchRgb computed with
                  | Some (m1, m2, m3) =>
                      let r := Number m1 in
                      let g := Number m2 in
                      let b := Number m3 in
                      if isFinite r && isFinite g && isFinite b
                      then Colors.formatHSL
                             (Colors.rgbToHsl {| Colors.r := r; Colors.g := g; Colors.b := b |})
                             false
                      else trimmed
                  | None => trimmed
                  end
              | None => trimmed
              end
          else trimmed
      end
  end.

Definition applyPresetColors :=
  Applicator.applyPresetColors normalizeColorValueToHslTriplet.

End WithEnvironment.

End Provider.

(** ** [components/UnifiedThemeScript.tsx]: the algorithm inlined in the script *)

Module Script.
Import JsString JsNumber Regex.

(** [\d+(?:\.\d+)?] *)
Definition Decimal : regex := Seq Digits (Alt Eps (Seq (Lit ".") Digits)).

(** [/^\d+(?:\.\d+)?\s+\d+(?:\.\d+)?%\s+\d+(?:\.\d+)?%$/] *)
Definition tripletPattern : regex :=
  Seq Decimal (Seq (Plus (Chr isWhiteSpace)) (Seq Decimal (Seq (Lit "%")
  (Seq (Plus (Chr isWhiteSpace)) (Seq Decimal (Lit "%")))))).

Definition clamp (n min max : float) : float := Math_min [max; Math_max [min; n]].

Definition rgbToHsl (r g b : float) : Colors.HSLColor :=
  Colors.rgbToHsl {| Colors.r := r; Colors.g := g; Colors.b := b |}.

(** [str.replace(/fn\(|\)/gi, '')] for a three-letter function name [fn]. *)
Fixpoint stripCallI (fn : string) (skip : nat) (str : string) : string :=
  match str with
  | EmptyString => EmptyString
  | String c rest =>
      match skip with
      | S k => stripCallI fn k rest
      | O =>
          match Probe.afterPrefixI fn str with
          | Some _ => stripCallI fn (String.length fn - 1) rest
          | None =>
              if Ascii.eqb c ")" then stripCallI fn 0 rest
              else String c (stripCallI fn 0 rest)
          end
      end
  end.

(** [str.split(',')] *)
Fixpoint splitComma (str : string) : list string :=
  match str with
  | EmptyString => [EmptyString]
  | String c rest =>
      if Ascii.eqb c "," then EmptyString :: splitComma rest
      else
        match splitComma rest with
        | w :: ws => String c w :: ws
        | [] => [String c EmptyString]
        end
  end.

Definition hexToRgb (hex : string) : option Colors.RGBColor :=
  let clean := trim (Colors.removeFirstHash hex) in
  let clean := if Nat.eqb (String.length clean) 3 then Colors.doubleChars clean else clean in
  let clean := if Nat.eqb (String.length clean) 8 then String.substring 0 6 clean else clean in
  if negb (Nat.eqb (String.length clean) 6) then None
  else
    let r := parseInt16 (String.substring 0 2 clean) in
    let g := parseInt16 (String.substring 2 2 clean) in
    let b := parseInt16 (String.substring 4 2 clean) in
    if PrimFloat.is_nan r || PrimFloat.is_nan g || PrimFloat.is_nan b then None
    else Some {| Colors.r := r; Colors.g := g; Colors.b := b |}.

Definition toTriplet (hsl : Colors.HSLColor) : string :=
  toString (clamp (Colors.h hsl) 0 360) +:+ " "
  +:+ toString (clamp (Colors.s hsl) 0 100) +:+ "% "
  +:+ toString (clamp (Colors.l hsl) 0 100) +:+ "%".

Section WithEnvironment.

Variable computedColor : string -> option string.

(** The [hsl(...)] branch; [None] when it falls through. *)
Definition fromHsl (trimmed : string) : option string :=
  match Probe.afterPrefixI "hsl(" trimmed with
  | Some _ =>
      let cleaned := trim (Colors.blankCommaPercent (stripCallI "hsl(" 0 trimmed)) in
      match Colors.splitWhiteSpace cleaned with
      | [p0; p1; p2] =>
          let h := orZero (parseFloat p0) in
          let s := orZero (parseFloat p1) in
          let l := orZero (parseFloat p2) in
          Some (toTriplet {| Colors.h := h; Colors.s := s; Colors.l := l |})
      | _ => None
      end
  | None => None
  end.

(** The [rgb(...)] branch. *)
Definition fromRgb (trimmed : string) : option string :=
  match Probe.afterPrefixI "rgb(" trimmed with
  | Some _ =>
      let cleaned := trim (stripCallI "rgb(" 0 trimmed) in
      match map trim (splitComma cleaned) with
      | [p0; p1; p2] =>
          let r := clamp (orZero (parseFloat p0)) 0 255 in
          let g := clamp (orZero (parseFloat p1)) 0 255 in
          let b := clamp (orZero (parseFloat p2)) 0 255 in
          Some (toTriplet (rgbToHsl r g b))
      | _ => None
      end
  | None => None
  end.

(** The hex branch. *)
Definition fromHex (trimmed : string) : option string :=
  match trimmed with
  | String "#" _ =>
      match hexToRgb trimmed with
      | Some rgb => Some (toTriplet (rgbToHsl (Colors.r rgb) (Colors.g rgb) (Colors.b rgb)))
      | None => None
      end
  | _ => None
  end.

(** The probe branch. *)
Definition fromProbe (trimmed : string) : option string :=
  match computedColor trimmed with
  | Some computed =>
      if truthy computed then
        match Probe.matchRgb computed with
        | Some (m1, m2, m3) =>
            let r := clamp (orZero (parseFloat m1)) 0 255 in
            let g := clamp (orZero (parseFloat m2)) 0 255 in
            let b := clamp (orZero (parseFloat m3)) 0 255 in
            Some (toTriplet (rgbToHsl r g b))
        | None => None
        end
      else None
  | None => None
  end.

Definition normalizeColorValueToHslTriplet (value : string) : string :=
  if negb (truthy value) then value
  else
    let trimmed := trim value in
    if negb (truthy trimmed) then value
    else if startsWith trimmed "var(" then trimmed
    else if test tripletPattern trimmed then trimmed
    else
      match fromHsl trimmed with
      | Some triplet => triplet
      | None =>
          match fromRgb trimmed with
          | Some triplet => triplet
          | None =>
              match fromHex trimmed with
              | Some triplet => triplet
              | None =>
                  match fromProbe trimmed with
                  | Some triplet => triplet
                  | None => value
                  end
              end
          end
      end.

(** One round of the write loop of [applyPresetProperties]. *)
Definition applyProperty (colors : gmap string string) (root : Dom.StyleDecl) (prop : string)
  : Dom.StyleDecl :=
  let value := colors !! prop in
  let value :=
    if negb (truthyOpt value) && truthyOpt (Applicator.defaultValues !! prop)
    then Applicator.defaultValues !! prop else value in
  match value with
  | Some v =>
      if truthy v then
        let v := if Applicator.isColorProperty prop
                 then normalizeColorValueToHslTriplet v else v in
        Dom.setProperty (Applicator.cssVar prop) v root
      else root
  | None => root
  end.

Definition applyPresetProperties (colors : option (gmap string string)) (root : Dom.StyleDecl)
  : Dom.StyleDecl :=
  match colors with
  | None => root
  | Some colors =>
      let root := foldl Applicator.clearProperty root Presets.ALL_CSS_PROPERTIES in
      foldl (applyProperty colors) root Presets.ALL_CSS_PROPERTIES
  end.

(** One round of the font loop of the script:
    [if (!colors[fontProp] && otherModeColors[fontProp])
       colors[fontProp] = otherModeColors[fontProp]]. *)
Definition inheritFont (otherModeColors : gmap string string) (colors : gmap string string)
    (fontProp : string) : gmap string string :=
  match otherModeColors !! fontProp with
  | Some v =>
      if negb (truthyOpt (colors !! fontProp)) && truthy v
      then <[fontProp := v]> colors else colors
  | None => colors
  end.

(** The preset restoration of the script, for the preset to apply
    ([presetToApply.colors], parsed from storage or the inlined default) and
    the mode read back from the root. *)
Definition restorePreset (light dark : option (gmap string string))
    (mode : Applicator.ResolvedMode) (root : Dom.StyleDecl) : Dom.StyleDecl :=
  let pick m := match m with Applicator.light => light | Applicator.dark => dark end in
  match pick mode with
  | Some colors =>
      let colors :=
        match pick (Applicator.otherMode mode) with
        | Some otherModeColors =>
            foldl (inheritFont otherModeColors) colors Applicator.fontProperties
        | None => colors
        end in
      applyPresetProperties (Some colors) root
  | None => root
  end.

End WithEnvironment.

End Script.

(** A sample environment: a document whose probe computes black for every
    text it is given. *)

Module SampleEnvironment.

Definition blackProbe (text : string) : option string := Some "rgb(0, 0, 0)".

Definition normalize : string -> string :=
  Provider.normalizeColorValueToHslTriplet true blackProbe.

Definition applyPresetColors :=
  Provider.applyPresetColors true blackProbe.

End SampleEnvironment.

(** Sample presets for the validator and the registry. *)

Module ValidationExamples.
Import JsValue.

Definition fullStyles (background : string) : t :=
  JObject (("background", JString background)
           :: map (fun prop => (prop, JString "#000"))
                  (tail Validation.REQUIRED_PROPERTIES ++ Validation.RECOMMENDED_PROPERTIES)).

Definition presetWith (label background : string) : t :=
  JObject [ ("label", JString label);
            ("styles", JObject [ ("light", fullStyles background);
                                 ("dark", fullStyles "#fff") ]) ].

(** A complete preset. *)
Definition goodPreset : t := presetWith "Good" "#ffffff".

(** A complete preset whose light background is in no syntax the recognizer names. *)
Definition oddPreset : t := presetWith "Odd" "not-a-color".

(** A preset without [styles]. *)
Definition brokenPreset : t := JObject [ ("label", JString "Broken") ].

Definition builtIns : gmap string t :=
  {[ "a" := presetWith "Built" "#111111"; "modern-minimal" := presetWith "Modern" "#222222" ]}.

End ValidationExamples.

(** Sample worlds for the applicator. *)

Module ApplicatorExamples.
Import Applicator.

(** A preset whose light map has a font and whose dark map has none. *)
Definition inkHeap : Heap :=
  {[ 1%positive := {[ "background" := "0 0% 100%"; "font-sans" := "Inter" ]};
     2%positive := {[ "background" := "0 0% 4%" ]};
     3%positive := {[ "background" := "0 0% 50%" ]};
     4%positive := {[ "background" := "0 0% 20%" ]} ]}.

(** A colors object without a dark map. *)
Definition lightOnly : PresetColors := {| colorsLight := Some 1%positive; colorsDark := None |}.

(** A preset with neither fonts nor radius, held at locations 3 and 4. *)
Definition plain : PresetColors := {| colorsLight := Some 3%positive; colorsDark := Some 4%positive |}.

Definition staleWorld : World :=
  {| heap := inkHeap; rootStyle := {[ "--radius" := "1rem" ]} |}.

End ApplicatorExamples.

(** ** The domain of the runtime normalizer

    The predicates in which the properties of the normalizer are stated, and
    the finite tables over which its arithmetic is checked: the texts made of
    given characters, the components that [parseHSL] reads back unchanged, the
    hex colors, the channels from 0 to 255 and the inputs that the normalizer
    converts. *)

Module NormalizerDomain.
Import JsString JsNumber.

(** *** Decimal numerals *)

(** A text of decimal digits only. *)
Fixpoint allDigits (s : string) : bool :=
  match s with
  | EmptyString => true
  | String c rest => Regex.isDigit c && allDigits rest
  end.

(** The number that a text of digits denotes, after the digits read into [acc]. *)
Fixpoint readAll (acc : N) (s : string) : N :=
  match s with
  | EmptyString => acc
  | String c rest => readAll (10 * acc + digitValue c)%N rest
  end.

Definition startsWithDigit (s : string) : bool :=
  match s with String c _ => Regex.isDigit c | EmptyString => false end.

(** The number that a numeral of the library denotes, most significant digit
    first. *)
Fixpoint valueBE (u : Decimal.uint) (acc : N) : N :=
  match u with
  | Decimal.Nil => acc
  | Decimal.D0 u => valueBE u (10 * acc)
  | Decimal.D1 u => valueBE u (10 * acc + 1)
  | Decimal.D2 u => valueBE u (10 * acc + 2)
  | Decimal.D3 u => valueBE u (10 * acc + 3)
  | Decimal.D4 u => valueBE u (10 * acc + 4)
  | Decimal.D5 u => valueBE u (10 * acc + 5)
  | Decimal.D6 u => valueBE u (10 * acc + 6)
  | Decimal.D7 u => valueBE u (10 * acc + 7)
  | Decimal.D8 u => valueBE u (10 * acc + 8)
  | Decimal.D9 u => valueBE u (10 * acc + 9)
  end%N.

(** *** Texts of given characters *)

Fixpoint allChars (p : ascii -> bool) (s : string) : bool :=
  match s with
  | EmptyString => true
  | String c rest => p c && allChars p rest
  end.

(** The characters of the text of a finite, non-negative number. *)
Definition numChar (c : ascii) : bool :=
  Regex.isDigit c || Ascii.eqb c "." || Ascii.eqb c "e" || Ascii.eqb c "+" || Ascii.eqb c "-".

(** Characters that [parseHSL] leaves in place and in one part. *)
Definition partChar (c : ascii) : bool :=
  negb (isWhiteSpace c) && negb (Ascii.eqb c ",") && negb (Ascii.eqb c "%")
  && negb (Ascii.eqb c ")") && negb (Ascii.eqb c "h").

(** Characters that [stripHslParens] keeps. *)
Definition keptChar (c : ascii) : bool := negb (Ascii.eqb c ")") && negb (Ascii.eqb c "h").

Definition nonWhite (c : ascii) : bool := negb (isWhiteSpace c).

(** The template of [formatHSL] without the wrapper. *)
Definition writeTriplet (a b c : string) : string := a +:+ " " +:+ b +:+ "% " +:+ c +:+ "%".

(** *** Components that are read back as written *)

(** +0 or a finite positive float. *)
Definition finiteNonNegative (x : float) : Prop :=
  Prim2SF x = S754_zero false \/ exists m e, Prim2SF x = S754_finite false m e.

(** A component that [parseHSL] reads back from its text unchanged. *)
Definition Stable (bound x : float) : Prop :=
  finiteNonNegative x /\ orZero x = x /\ Math_max [0%float; Math_min [bound; x]] = x.

(** What the clamp of [parseHSL] needs of its upper bound. *)
Definition goodBound (bound : float) : bool :=
  negb (PrimFloat.is_nan bound) && negb (PrimFloat.is_zero bound)
  && (bound <? infinity)%float && (0 <? bound)%float && negb (bound <? bound)%float
  && match Prim2SF bound with S754_finite false _ _ => true | _ => false end.

(** *** The channels from 0 to 255 and their conversion *)

(** The Number that [parseInt] returns for the integer [n]. *)
Definition channel (n : nat) : float := SF2Prim (decimalToSF false (N.of_nat n) 0).

(** The Numbers 0, 1, ..., 255. *)
Definition channels : list float := Eval vm_compute in map channel (seq 0 256).

(** The same, each divided by 255 as [rgbToHsl] divides them. *)
Definition unitChannels : list float :=
  Eval vm_compute in map (fun c => (c / 255)%float) channels.

(** The Number of the integer [k], as [Math.round] returns it. *)
Definition smallInt (k : nat) : float := of_uint63 (Uint63.of_Z (Z.of_nat k)).

(** [Stable], decided on a given Number. *)
Definition stableb (bound x : float) : bool :=
  match Prim2SF x with S754_zero false | S754_finite false _ _ => true | _ => false end
  && PrimFloat.Leibniz.eqb (orZero x) x
  && PrimFloat.Leibniz.eqb (Math_max [0%float; Math_min [bound; x]]) x.

(** Every integer up to [n] is a stable component written as its decimal numeral. *)
Definition smallIntsWritten (bound : float) (n : nat) : bool :=
  forallb (fun k =>
    stableb bound (smallInt k)
    && String.eqb (toString (smallInt k)) (decimalString (N.of_nat k))) (seq 0 (S n)).

(** The hexadecimal digits. *)
Definition hexChars : list ascii := list_ascii_of_string "0123456789abcdefABCDEF".

(** [parseInt] reads every pair of [digits] as one of [values]. *)
Definition hexPairsRead (digits : list ascii) (values : list float) : bool :=
  forallb (fun c1 => forallb (fun c2 =>
    existsb (PrimFloat.Leibniz.eqb (parseInt16 (String c1 (String c2 EmptyString)))) values)
    digits) digits.

(** A Number for which [Math.max] and [Math.min] are plain comparisons. *)
Definition plain (x : float) : bool :=
  negb (PrimFloat.is_nan x) && negb (isNegativeZero x)
  && (neg_infinity <? x)%float && (x <? infinity)%float && negb (x <? x)%float.

(** [Math.max] and [Math.min] of two plain Numbers. *)
Definition higher (a b : float) : float := if (a <? b)%float then b else a.

Definition lower (a b : float) : float := if (b <? a)%float then b else a.

(** The integer nearest to [x], a tie going up, for [0 < x < 2^52]. *)
Definition roundInt (x : float) : int :=
  let f := floorInt x in
  if (0.5 <=? x - of_uint63 f)%float then Uint63.add f 1%uint63 else f.

(** [Math.round(x)] is an integer from 0 to [bound]. *)
Definition roundsWithin (bound : int) (x : float) : bool :=
  if (0 <? x)%float
  then (x <? 4503599627370496)%float && (roundInt x <=? bound)%uint63
  else PrimFloat.Leibniz.eqb x 0.

(** The hue, saturation and lightness of [rgbToHsl] before rounding, from the
    highest and the lowest of the three channels. *)
Definition hueOf (max min r g b : float) : float :=
  let diff := (max - min)%float in
  if negb (diff =? 0)%float then
    ((if (max =? r)%float then ((g - b) / diff + (if (g <? b)%float then 6 else 0))%float
      else if (max =? g)%float then ((b - r) / diff + 2)%float
      else if (max =? b)%float then ((r - g) / diff + 4)%float
      else 0%float) / 6)%float
  else 0%float.

Definition saturationOf (max min : float) : float :=
  let diff := (max - min)%float in
  let l := ((max + min) / 2)%float in
  if negb (diff =? 0)%float then
    if (0.5 <? l)%float then (diff / (2 - max - min))%float
    else (diff / (max + min))%float
  else 0%float.

Definition lightnessOf (max min : float) : float := ((max + min) / 2)%float.

(** The hue of every three of [values] rounds to an integer up to 360. *)
Definition huesRounded (values : list float) : bool :=
  forallb (fun r => forallb (fun g =>
    let mx := higher r g in
    let mn := lower r g in
    forallb (fun b => roundsWithin 360 (hueOf (higher mx b) (lower mn b) r g b * 360)%float)
            values) values) values.

(** The saturation and the lightness of every highest and lowest of [values]
    round to integers up to 100. *)
Definition shadesRounded (values : list float) : bool :=
  forallb (fun mx => forallb (fun mn =>
    (mx <? mn)%float
    || (roundsWithin 100 (saturationOf mx mn * 100)%float
        && roundsWithin 100 (lightnessOf mx mn * 100)%float))
    values) values.

(** *** Hex colors and converted inputs *)

(** The text after an optional leading [#]. *)
Definition hexDigits (str : string) : string :=
  match str with
  | String c rest => if Ascii.eqb c "#" then rest else str
  | EmptyString => str
  end.

(** [#rgb], [#rrggbb], [rgb] or [rrggbb]. *)
Definition hexColor (str : string) : bool :=
  let digits := hexDigits str in
  (Nat.eqb (String.length digits) 3 || Nat.eqb (String.length digits) 6)
  && allChars Validation.isHexDigit digits.

(** The triplet of three integers. *)
Definition integerTriplet (H S L : nat) : string :=
  writeTriplet (decimalString (N.of_nat H)) (decimalString (N.of_nat S))
               (decimalString (N.of_nat L)).

(** A channel text that reads as an integer from 0 to 255. *)
Definition inGamut (m : string) : bool :=
  existsb (PrimFloat.Leibniz.eqb (Number m)) channels.

(** The inputs that the runtime normalizer converts through [rgbToHsl] from
    channels 0 to 255: a hex color, or a text that the browser resolves to such
    channels. *)
Definition fromRgb (hasDocument : bool) (computedColor : string -> option string)
    (value : string) : bool :=
  let trimmed := trim value in
  match Colors.parseHSL trimmed with
  | Some _ => false
  | None =>
      hexColor trimmed
      || match Colors.parseHex trimmed with
         | Some _ => false
         | None =>
             hasDocument && negb (startsWith trimmed "var(")
             && match computedColor trimmed with
                | Some computed =>
                    match Probe.matchRgb computed with
                    | Some (m1, m2, m3) => inGamut m1 && inGamut m2 && inGamut m3
                    | None => false
                    end
                | None => false
                end
         end
  end.

(** The inputs that the runtime normalizer converts to a triplet: those
    [parseHSL] reads (hsl(), raw triplets and any other text of three parts)
    and those of [fromRgb]. *)
Definition converts (hasDocument : bool) (computedColor : string -> option string)
    (value : string) : bool :=
  match Colors.parseHSL (trim value) with
  | Some _ => true
  | None => fromRgb hasDocument computedColor value
  end.

End NormalizerDomain.

(** * Properties *)

(** ** The property applicator *)

Section ApplicatorFrame.
Import Applicator.








End ApplicatorFrame.

Section ApplicatorFacts.
Import Applicator.

Variable normalize : string -> string.





End ApplicatorFacts.

Section ApplicatorClaims.
Import Applicator.

Variable normalize : string -> string.





(** C10. Without a colors object, or without a map for the requested mode in
    it, applyPresetColors changes nothing: no property is cleared or written,
    so the root keeps every custom property as it was. *)
Theorem applyPresetColors_noop_without_colors (preset : option PresetColors)
    (mode : ResolvedMode) (w : World) :
  preset = None \/ (exists p, preset = Some p /\ modeMap p mode = None) ->
  applyPresetColors normalize preset mode w = w /\
  forall k, rootStyle (applyPresetColors normalize preset mode w) !! k = rootStyle w !! k.
Proof.
  intros Hno.
  assert (applyPresetColors normalize preset mode w = w) as ->; [|done].
  destruct Hno as [-> | (p & -> & Hm)]; [done|].
  unfold applyPresetColors, getColors. by rewrite Hm.
Qed.

End ApplicatorClaims.

Section ApplicatorWitnesses.
Import Applicator ApplicatorExamples.




Lemma applyPresetColors_noop_without_colors_witness :
  rootStyle (applyPresetColors (fun s => s) (Some lightOnly) dark staleWorld) !! "--radius"
  = Some "1rem".
Proof.
  destruct (applyPresetColors_noop_without_colors (fun s => s) (Some lightOnly) dark staleWorld)
    as [_ Hroot].
  - right. exists lightOnly. split; reflexivity.
  - rewrite Hroot. vm_compute. reflexivity.
Defined.

End ApplicatorWitnesses.

(** ** The preset validator *)

Section ValidationFacts.
Import JsValue Validation.

Lemma isValidColorValue_always (value : string) : isValidColorValue value = true.
Proof. unfold isValidColorValue. by repeat case_match. Qed.

Lemma validateMode_warnings (pre : string) (styles : t) (mode w : string) :
  In w (validateMode pre styles mode).2 ->
  exists prop, In prop RECOMMENDED_PROPERTIES /\ w = missingRecommended pre mode prop.
Proof.
  unfold validateMode. case_match; [intros []|].
  cbn [snd]. rewrite in_app_iff. intros [Hrec | Hcol].
  - apply in_flat_map in Hrec as (prop & Hprop & Hw).
    exists prop. split; [done|]. case_match; [|destruct Hw].
    by destruct Hw as [<- | []].
  - apply in_flat_map in Hcol as ([key value] & _ & Hw). exfalso.
    cbn [fst snd] in Hw. destruct value; try done.
    rewrite isValidColorValue_always in Hw. by case_match.
Qed.

Lemma validateMode_errors (pre : string) (styles : t) (mode e : string) :
  In e (validateMode pre styles mode).1 ->
  e = pre +:+ " Must have " +:+ mode +:+ " mode styles" \/
  exists prop, In prop REQUIRED_PROPERTIES /\ e = missingRequired pre mode prop.
Proof.
  unfold validateMode. case_match.
  - intros [<- | []]. by left.
  - cbn [fst]. intros (prop & Hprop & He)%in_flat_map. right.
    exists prop. split; [done|]. case_match; [|destruct He].
    by destruct He as [<- | []].
Qed.

(** C7, as amended. The color-syntax recognizer accepts every string, so the
    validator reports nothing about the syntax of a value: each warning is a
    missing recommended property, each error is structural (not an object, no
    label, no styles, no map for a mode, a missing required property), and
    validity is the absence of errors. *)
Theorem color_syntax_is_never_reported (preset : t) (presetId : option string) :
  let result := validateTweakCNPreset preset presetId in
  let pre := prefix presetId in
  (forall value, isValidColorValue value = true) /\
  (forall w, In w (warnings result) ->
     exists mode prop, In mode ["light"; "dark"] /\ In prop RECOMMENDED_PROPERTIES /\
                       w = missingRecommended pre mode prop) /\
  (forall e, In e (errors result) ->
     In e [ pre +:+ " Must be an object"; pre +:+ " Must have a non-empty label";
            pre +:+ " Must have a styles object";
            pre +:+ " Must have light mode styles"; pre +:+ " Must have dark mode styles" ] \/
     exists mode prop, In mode ["light"; "dark"] /\ In prop REQUIRED_PROPERTIES /\
                       e = missingRequired pre mode prop) /\
  (isValid result = true <-> errors result = []).
Proof.
  intros result pre. split; [exact isValidColorValue_always|].
  subst result. unfold validateTweakCNPreset. fold pre.
  destruct (negb (truthy preset) || negb (isObject preset)).
  { cbn [warnings errors isValid]. repeat split; try done.
    intros e [<- | []]. left. by left. }
  set (labelErrors := if _ : bool then [_] else []).
  assert (Hlabel : forall e, In e labelErrors -> e = pre +:+ " Must have a non-empty label").
  { subst labelErrors. intros e. case_match; [by intros [<- | []] | intros []]. }
  destruct (negb (truthy (get preset "styles")) || negb (isObject (get preset "styles"))).
  { cbn [warnings errors isValid]. repeat split; try done.
    - intros e [He | [<- | []]]%in_app_iff; left.
      + rewrite (Hlabel e He). right. by left.
      + right. right. by left.
    - by destruct labelErrors. }
  cbn [warnings errors isValid]. repeat split.
  - intros w [Hw | Hw]%in_app_iff; apply validateMode_warnings in Hw as (prop & Hprop & ->).
    + exists "light", prop. repeat split; [by left | done].
    + exists "dark", prop. repeat split; [right; by left | done].
  - intros e [He | [He | He]%in_app_iff]%in_app_iff.
    + left. rewrite (Hlabel e He). right. by left.
    + apply validateMode_errors in He as [-> | (prop & Hprop & ->)].
      * left. do 3 right. by left.
      * right. exists "light", prop. repeat split; [by left | done].
    + apply validateMode_errors in He as [-> | (prop & Hprop & ->)].
      * left. do 4 right. by left.
      * right. exists "dark", prop. repeat split; [right; by left | done].
  - intros H%Nat.eqb_eq. by apply length_zero_iff_nil.
  - intros ->. done.
Qed.

(** C7, as stated, fails: a value in none of the recognized syntaxes draws no
    warning. *)
Lemma unrecognized_color_draws_no_warning :
  recognizedColorSyntax "not-a-color" = false /\
  get (get (get ValidationExamples.oddPreset "styles") "light") "background"
  = JString "not-a-color" /\
  warnings (validateTweakCNPreset ValidationExamples.oddPreset (Some "odd")) = [].
Proof. vm_compute. repeat split; reflexivity. Qed.

End ValidationFacts.

(** ** The preset registry *)

Section RegistryFacts.
Import JsValue Validation Registry.

Lemma assign_lookup_other (source : list (string * t)) (target : gmap string t) (id : string) :
  ~ In id (map fst source) -> assign target source !! id = target !! id.
Proof.
  induction source as [|[k v] source IH] using rev_ind; [done|].
  rewrite map_app, in_app_iff. intros Hout.
  unfold assign. rewrite foldl_snoc. cbn [fst snd].
  rewrite lookup_insert_ne; [apply IH; tauto|].
  intros ->. apply Hout. right. by left.
Qed.

Lemma assign_lookup_entry (source : list (string * t)) (target : gmap string t)
    (id : string) (preset : t) :
  List.NoDup (map fst source) -> In (id, preset) source ->
  assign target source !! id = Some preset.
Proof.
  induction source as [|[k v] source IH] using rev_ind; [intros _ []|].
  rewrite map_app. cbn [map fst]. intros Hnd [Hin | [[= -> ->] | []]]%in_app_iff;
    unfold assign; rewrite foldl_snoc; cbn [fst snd].
  - apply NoDup_remove in Hnd as [Hnd Hk]. rewrite app_nil_r in Hnd, Hk.
    rewrite lookup_insert_ne; [by apply IH|].
    intros ->. apply Hk. by apply (in_map fst) in Hin.
  - apply lookup_insert_eq.
Qed.

(** C4. The registry merge is all or nothing. If validateCustomPresets
    reports an error, the merged map is the built-in collection and no custom
    id outside it appears; if it reports none, every custom entry is in the
    merged map under its key, in place of a built-in preset of that key, and
    the other keys keep their built-in presets; builtInPresets is the static
    collection in both cases. *)
Theorem registry_merge_is_all_or_nothing (tweakcnPresets : gmap string t)
    (customPresets : list (string * t)) :
  List.NoDup (map fst customPresets) ->
  let result := validateCustomPresets (JObject customPresets) in
  let merged := availablePresets tweakcnPresets customPresets in
  (errors result <> [] ->
     merged = tweakcnPresets /\
     forall id, tweakcnPresets !! id = None -> merged !! id = None) /\
  (errors result = [] ->
     (forall id preset, In (id, preset) customPresets -> merged !! id = Some preset) /\
     (forall id, ~ In id (map fst customPresets) -> merged !! id = tweakcnPresets !! id)) /\
  builtInPresets tweakcnPresets customPresets = tweakcnPresets.
Proof.
  intros Hnd result merged.
  assert (Hvalid : isValid result = Nat.eqb (length (errors result)) 0) by done.
  subst merged. unfold availablePresets. fold result. rewrite Hvalid, orb_diag.
  repeat split.
  - destruct customPresets as [|entry rest]; [done|]. cbn [length Nat.ltb Nat.leb].
    destruct (errors result); [done|]. done.
  - intros id Hid. destruct customPresets as [|entry rest]; [done|]. cbn [length Nat.ltb Nat.leb].
    destruct (errors result); [done|]. done.
  - intros id preset Hin. destruct customPresets as [|entry rest]; [destruct Hin|].
    cbn [length Nat.ltb Nat.leb]. rewrite H. cbn [length Nat.eqb].
    by apply assign_lookup_entry.
  - intros id Hout. destruct customPresets as [|entry rest]; [done|].
    cbn [length Nat.ltb Nat.leb]. rewrite H. cbn [length Nat.eqb].
    by apply assign_lookup_other.
Qed.

Lemma registry_merge_is_all_or_nothing_witness :
  availablePresets ValidationExamples.builtIns
    [ ("a", ValidationExamples.goodPreset); ("b", ValidationExamples.brokenPreset) ]
  = ValidationExamples.builtIns /\
  availablePresets ValidationExamples.builtIns
    [ ("a", ValidationExamples.goodPreset); ("c", ValidationExamples.oddPreset) ] !! "a"
  = Some ValidationExamples.goodPreset.
Proof.
  split.
  - destruct (registry_merge_is_all_or_nothing ValidationExamples.builtIns
                [ ("a", ValidationExamples.goodPreset); ("b", ValidationExamples.brokenPreset) ])
      as [Herr _].
    + repeat constructor; cbn; intuition congruence.
    + apply Herr. vm_compute. discriminate.
  - destruct (registry_merge_is_all_or_nothing ValidationExamples.builtIns
                [ ("a", ValidationExamples.goodPreset); ("c", ValidationExamples.oddPreset) ])
      as (_ & Hok & _).
    + repeat constructor; cbn; intuition congruence.
    + apply Hok; [vm_compute; reflexivity | by left].
Defined.

End RegistryFacts.

(** ** Mode state *)

Section ModeFacts.
Import ModeState.

(** C3, on the code: a persisted mode that is not one of the three valid
    values is adopted by the provider as [mode] and as [resolvedMode], and
    becomes a class of the root; the pre-hydration script falls back to the
    default on the same input. *)
Theorem invalid_persisted_mode_is_adopted :
  let env := {| storage := Some {[ THEME_STORAGE_KEY := "blue" ]}; prefersDark := false |} in
  let st := reconcile env "system" THEME_STORAGE_KEY in
  isValidMode "blue" = false /\
  mode st = "blue" /\ resolvedMode st = "blue" /\
  applyModeClass [] st = ["blue"] /\
  scriptMode env "system" THEME_STORAGE_KEY = {| mode := "system"; resolvedMode := "light" |}.
Proof. vm_compute. repeat split; reflexivity. Qed.

End ModeFacts.

(** ** The color normalizers on concrete inputs *)

Section NormalizerEvaluations.

Variable hasDocument : bool.
Variable computedColor : string -> option string.

(** C2, on the code: the runtime normalizer has no rgb() branch; parseHSL
    takes the three comma-separated parts of rgb(r, g, b) for h, s and l, and
    the first, which starts with "rgb(", reads as 0. *)
Theorem runtime_normalizer_misreads_rgb :
  Provider.normalizeColorValueToHslTriplet hasDocument computedColor "rgb(255, 0, 0)"
  = "0 0% 0%" /\
  Provider.normalizeColorValueToHslTriplet hasDocument computedColor "rgb(255, 128, 64)"
  = "0 100% 64%" /\
  Colors.formatHSL
    (Colors.rgbToHsl {| Colors.r := 255; Colors.g := 0; Colors.b := 0 |}) false
  = "0 100% 50%".
Proof. repeat split; vm_compute; reflexivity. Qed.

(** C1, on the code: the inlined script and the runtime provider normalize
    the same color differently, and so write different values for the same
    preset. *)
Theorem script_and_runtime_diverge :
  let colors : gmap string string := {[ "primary" := "rgb(255, 0, 0)" ]} in
  let w := {| Applicator.heap := {[ 1%positive := colors ]}; Applicator.rootStyle := ∅ |} in
  let preset := {| Applicator.colorsLight := Some 1%positive;
                   Applicator.colorsDark := None |} in
  Script.normalizeColorValueToHslTriplet computedColor "rgb(255, 0, 0)" = "0 100% 50%" /\
  Provider.normalizeColorValueToHslTriplet hasDocument computedColor "rgb(255, 0, 0)"
  = "0 0% 0%" /\
  Script.restorePreset computedColor (Some colors) None Applicator.light ∅ !! "--primary"
  = Some "0 100% 50%" /\
  Applicator.rootStyle
    (Provider.applyPresetColors hasDocument computedColor (Some preset) Applicator.light w)
    !! "--primary"
  = Some "0 0% 0%".
Proof. repeat split; vm_compute; reflexivity. Qed.

End NormalizerEvaluations.

(** ** The runtime normalizer on every input it converts *)

Section NormalizerFacts.
Import JsString JsNumber NormalizerDomain.

(** *** Appending texts, and the numerals of the library *)

Lemma append_nil_l (s : string) : "" +:+ s = s.
Proof. reflexivity. Qed.

Lemma append_cons (c : ascii) (s t : string) : String c s +:+ t = String c (s +:+ t).
Proof. reflexivity. Qed.

Lemma append_nil_r (s : string) : s +:+ "" = s.
Proof. induction s as [|c s IH]; [done|]. by rewrite append_cons, IH. Qed.

Lemma append_assoc (s t u : string) : (s +:+ t) +:+ u = s +:+ t +:+ u.
Proof. induction s as [|c s IH]; [done|]. by rewrite !append_cons, IH. Qed.

Lemma length_append (s t : string) :
  String.length (s +:+ t) = (String.length s + String.length t)%nat.
Proof. induction s as [|c s IH]; [done|]. rewrite append_cons. cbn [String.length]. by rewrite IH. Qed.

Lemma readDigits_app (s rest : string) (acc : N) (len : Z) :
  allDigits s = true -> startsWithDigit rest = false ->
  readDigits acc len (s +:+ rest) = (readAll acc s, len + Z.of_nat (String.length s), rest).
Proof.
  revert acc len. induction s as [|c s IH]; intros acc len Hs Hrest.
  - rewrite append_nil_l. cbn [String.length Z.of_nat readAll]. rewrite Z.add_0_r.
    destruct rest as [|c rest]; [done|].
    cbn [startsWithDigit] in Hrest. cbn [readDigits]. by rewrite Hrest.
  - cbn [allDigits] in Hs. apply andb_prop in Hs as [Hc Hs].
    rewrite append_cons. cbn [readDigits readAll String.length]. rewrite Hc, IH by done.
    f_equal. f_equal. lia.
Qed.

Lemma readAll_app (s t : string) (acc : N) :
  readAll acc (s +:+ t) = readAll (readAll acc s) t.
Proof.
  revert acc. induction s as [|c s IH]; intros acc; [done|].
  rewrite append_cons. cbn [readAll]. apply IH.
Qed.

Lemma allDigits_app (s t : string) :
  allDigits (s +:+ t) = allDigits s && allDigits t.
Proof.
  induction s as [|c s IH]; [done|]. rewrite append_cons. cbn [allDigits].
  by rewrite IH, andb_assoc.
Qed.

Lemma readAll_uint (u : Decimal.uint) (acc : N) :
  readAll acc (NilEmpty.string_of_uint u) = valueBE u acc.
Proof.
  revert acc. induction u; intros acc; cbn [NilEmpty.string_of_uint readAll valueBE];
    try done; rewrite IHu; f_equal; vm_compute digitValue; lia.
Qed.

Lemma allDigits_uint (u : Decimal.uint) : allDigits (NilEmpty.string_of_uint u) = true.
Proof. induction u; cbn; try done. Qed.

Lemma valueBE_acc (u : Decimal.uint) (p : positive) :
  valueBE u (Npos p) = Npos (Pos.of_uint_acc u p).
Proof.
  revert p. induction u; intros p; cbn [valueBE Pos.of_uint_acc]; try done;
    rewrite <- IHu; f_equal; lia.
Qed.

Lemma valueBE_of_uint (u : Decimal.uint) : valueBE u 0 = N.of_uint u.
Proof.
  induction u; cbn [valueBE]; [done | exact IHu | ..];
    match goal with
    | |- valueBE ?u (10 * 0 + ?k)%N = _ => change (10 * 0 + k)%N with k
    end;
    match goal with
    | |- valueBE ?u (Npos ?p) = _ => rewrite (valueBE_acc u p)
    end; reflexivity.
Qed.

Lemma readAll_decimalString (n : N) : readAll 0 (decimalString n) = n.
Proof.
  unfold decimalString. rewrite readAll_uint, valueBE_of_uint.
  apply DecimalN.Unsigned.of_to.
Qed.

Lemma allDigits_decimalString (n : N) : allDigits (decimalString n) = true.
Proof. apply allDigits_uint. Qed.



(** *** The text of a number *)

Ltac zbool :=
  repeat match goal with
  | H : (_ && _) = true |- _ => apply andb_prop in H as [? ?]
  | H : (_ && _) = false |- _ => apply andb_false_iff in H
  | H : (_ <=? _) = true |- _ => apply Z.leb_le in H
  | H : (_ <=? _) = false |- _ => apply Z.leb_gt in H
  | H : (_ <? _) = true |- _ => apply Z.ltb_lt in H
  | H : (_ <? _) = false |- _ => apply Z.ltb_ge in H
  | H : (_ =? _) = true |- _ => apply Z.eqb_eq in H
  | H : (_ =? _) = false |- _ => apply Z.eqb_neq in H
  | H : _ \/ _ |- _ => destruct H
  end.

Ltac eqb_false :=
  match goal with
  | |- context [(?a =? ?b)] => rewrite (proj2 (Z.eqb_neq a b)) by lia
  end.

Lemma readAll_zeros (j : nat) (acc : N) : readAll acc (zeros j) = (acc * 10 ^ N.of_nat j)%N.
Proof.
  revert acc. induction j as [|j IH]; intros acc.
  - cbn [zeros readAll]. change (10 ^ N.of_nat 0)%N with 1%N. lia.
  - cbn [zeros readAll]. rewrite IH. change (digitValue "0") with 0%N.
    rewrite Nat2N.inj_succ, N.pow_succ_r'. lia.
Qed.

Lemma allDigits_zeros (j : nat) : allDigits (zeros j) = true.
Proof. induction j as [|j IH]; [done|]. cbn [zeros allDigits]. by rewrite IH. Qed.

Lemma length_zeros (j : nat) : String.length (zeros j) = j.
Proof. induction j as [|j IH]; [done|]. cbn [zeros String.length]. by rewrite IH. Qed.

Lemma substring_split (s : string) (n : nat) :
  (n <= String.length s)%nat ->
  String.substring 0 n s +:+ String.substring n (String.length s - n) s = s.
Proof.
  revert n. induction s as [|c s IH]; intros n Hn.
  - cbn [String.length] in Hn. assert (n = 0%nat) as -> by lia. done.
  - destruct n as [|n].
    + cbn [String.length Nat.sub String.substring]. rewrite append_nil_l. f_equal.
      specialize (IH 0%nat ltac:(lia)). rewrite Nat.sub_0_r in IH.
      destruct (String.length s) eqn:E.
      * destruct s; [done|]. discriminate.
      * cbn [String.substring] in IH. destruct s as [|c' s']; [done|].
        rewrite append_nil_l in IH. exact IH.
    + cbn [String.length] in Hn. cbn [String.substring String.length Nat.sub].
      rewrite append_cons. f_equal. apply IH. lia.
Qed.

Lemma length_substring_prefix (s : string) (n : nat) :
  (n <= String.length s)%nat -> String.length (String.substring 0 n s) = n.
Proof.
  revert n. induction s as [|c s IH]; intros n Hn.
  - cbn [String.length] in Hn. assert (n = 0%nat) as -> by lia. done.
  - destruct n as [|n]; [done|]. cbn [String.length] in Hn.
    cbn [String.substring String.length]. rewrite IH; lia.
Qed.

Lemma length_substring_suffix (s : string) (n : nat) :
  (n <= String.length s)%nat ->
  String.length (String.substring n (String.length s - n) s) = (String.length s - n)%nat.
Proof.
  intros Hn. pose proof (substring_split s n Hn) as E.
  apply (f_equal String.length) in E. rewrite length_append, length_substring_prefix in E by done.
  lia.
Qed.

Lemma allDigits_substring (s : string) (n : nat) :
  (n <= String.length s)%nat -> allDigits s = true ->
  allDigits (String.substring 0 n s) = true /\
  allDigits (String.substring n (String.length s - n) s) = true.
Proof.
  intros Hn Hs. rewrite <- (substring_split s n Hn), allDigits_app in Hs.
  by apply andb_prop in Hs.
Qed.

Lemma length_decimalString_pos (d : N) : (0 < String.length (decimalString d))%nat.
Proof.
  unfold decimalString. destruct d as [|p]; [cbn; lia|].
  cbn [N.to_uint]. pose proof (DecimalPos.Unsigned.to_uint_nonnil p) as Hnn.
  destruct (Pos.to_uint p); [done|..]; cbn [NilEmpty.string_of_uint String.length]; lia.
Qed.

(** The exponent suffix written by [render]. *)
Lemma readExponent_written (x : Z) (rest : string) :
  x <> 0 -> startsWithDigit rest = false ->
  readExponent (((if 0 <=? x then "e+" else "e-") +:+ decimalString (Z.to_N (Z.abs x))) +:+ rest)
  = x.
Proof.
  intros Hx Hrest. unfold readExponent.
  destruct (0 <=? x) eqn:Hsign; rewrite !append_cons, !append_nil_l.
  - change (Ascii.eqb "e" "e" || Ascii.eqb "e" "E") with true. cbv iota.
    rewrite readDigits_app by (done || apply allDigits_decimalString).
    rewrite readAll_decimalString.
    pose proof (length_decimalString_pos (Z.to_N (Z.abs x))).
    eqb_false. apply Z.leb_le in Hsign. rewrite Z2N.id; lia.
  - change (Ascii.eqb "e" "e" || Ascii.eqb "e" "E") with true. cbv iota.
    rewrite readDigits_app by (done || apply allDigits_decimalString).
    rewrite readAll_decimalString.
    pose proof (length_decimalString_pos (Z.to_N (Z.abs x))).
    eqb_false. apply Z.leb_gt in Hsign. rewrite Z2N.id; lia.
Qed.

Lemma readUnsigned_render (d : N) (e10 : Z) :
  (0 < d)%N ->
  readUnsigned (render d e10) = Some (d, e10) \/
  (0 <= e10 /\ readUnsigned (render d e10) = Some ((d * 10 ^ Z.to_N e10)%N, 0)).
Proof.
  intros Hd. unfold render.
  set (ds := decimalString d).
  pose proof (length_decimalString_pos d) as Hk. fold ds in Hk.
  pose proof (allDigits_decimalString d) as Hds. fold ds in Hds.
  pose proof (readAll_decimalString d) as Hval. fold ds in Hval.
  set (k := Z.of_nat (String.length ds)). cbv zeta.
  destruct ((k <=? e10 + k) && (e10 + k <=? 21)) eqn:C1.
  { (* integer followed by zeros *)
    right. zbool. split; [lia|].
    unfold readUnsigned. rewrite <- (append_nil_r (ds +:+ _)).
    rewrite readDigits_app; [|by rewrite allDigits_app, Hds, allDigits_zeros | done].
    rewrite length_append, length_zeros.
    eqb_false.
    rewrite readAll_app, Hval, readAll_zeros. cbn [readExponent].
    do 4 f_equal. lia. }
  destruct ((0 <? e10 + k) && (e10 + k <=? 21)) eqn:C2.
  { (* digits, point, digits *)
    left. zbool; try lia.
    assert (Hn : (Z.to_nat (e10 + k) <= String.length ds)%nat) by lia.
    destruct (allDigits_substring ds _ Hn Hds) as [Ha Hb].
    assert (Hcut : Z.to_nat (k - (e10 + k)) = (String.length ds - Z.to_nat (e10 + k))%nat) by lia.
    rewrite Hcut. unfold substring, readUnsigned.
    rewrite readDigits_app by done. rewrite append_cons, append_nil_l.
    rewrite <- (append_nil_r (String.substring (Z.to_nat (e10 + k)) _ ds)).
    rewrite readDigits_app by done.
    rewrite <- readAll_app, substring_split, Hval by done.
    rewrite length_substring_prefix, length_substring_suffix by done.
    eqb_false. cbn [andb readExponent]. do 2 f_equal. lia. }
  destruct ((-6 <? e10 + k) && (e10 + k <=? 0)) eqn:C3.
  { (* 0.000ddd *)
    left. clear C1 C2. zbool.
    unfold readUnsigned. rewrite !append_cons, append_nil_l.
    cbn [readDigits]. change (Regex.isDigit "0") with true.
    change (Regex.isDigit ".") with false. cbv iota.
    rewrite <- (append_nil_r (zeros _ +:+ ds)).
    rewrite readDigits_app; [|by rewrite allDigits_app, Hds, allDigits_zeros | done].
    rewrite length_append, length_zeros, readAll_app, readAll_zeros.
    change (10 * 0 + digitValue "0")%N with 0%N. rewrite N.mul_0_l, Hval.
    eqb_false. cbn [andb readExponent]. do 2 f_equal. lia. }
  assert (Hx : e10 + k - 1 <> 0) by (clear C3; zbool; lia).
  set (expo := (if 0 <=? e10 + k - 1 then "e+" else "e-") +:+ _).
  assert (Hexp : readExponent expo = e10 + k - 1).
  { rewrite <- (append_nil_r expo). by apply readExponent_written. }
  assert (Hhead : exists t, expo = String "e" t).
  { subst expo. destruct (0 <=? _); rewrite append_cons; eauto. }
  destruct Hhead as [t Ht].
  left. destruct (k =? 1) eqn:K1.
  { (* one digit and an exponent *)
    unfold readUnsigned. rewrite readDigits_app; [|done|by rewrite Ht].
    rewrite Hval. rewrite Ht at 1. eqb_false. rewrite Hexp.
    apply Z.eqb_eq in K1. do 2 f_equal. lia. }
  (* digit, point, digits and an exponent *)
  assert (Hn : (1 <= String.length ds)%nat) by lia.
  destruct (allDigits_substring ds _ Hn Hds) as [Ha Hb].
  assert (Hcut : Z.to_nat (k - 1) = (String.length ds - 1)%nat) by lia.
  rewrite Hcut. unfold substring, readUnsigned.
  rewrite readDigits_app by done. rewrite append_cons, append_nil_l.
  rewrite readDigits_app; [|done|by rewrite Ht].
  rewrite <- readAll_app, substring_split, Hval by done.
  rewrite length_substring_prefix, length_substring_suffix by done.
  eqb_false. cbn [andb]. rewrite Hexp. do 2 f_equal. lia.
Qed.

Lemma render_head (d : N) (e10 : Z) :
  exists c t, render d e10 = String c t /\ Regex.isDigit c = true.
Proof.
  unfold render.
  set (ds := decimalString d).
  pose proof (length_decimalString_pos d) as Hk. fold ds in Hk.
  pose proof (allDigits_decimalString d) as Hds. fold ds in Hds.
  destruct ds as [|c ds'] eqn:E; [cbn in Hk; lia|].
  cbn [allDigits] in Hds. apply andb_prop in Hds as [Hc _].
  cbv zeta. repeat case_match; rewrite ?append_cons; eauto.
  - unfold substring. destruct (Z.to_nat _) eqn:En.
    + zbool; lia.
    + cbn [String.substring]. rewrite append_cons. eauto.
Qed.


(** *** Texts of given characters *)

Lemma allChars_app (p : ascii -> bool) (s t : string) :
  allChars p (s +:+ t) = allChars p s && allChars p t.
Proof.
  induction s as [|c s IH]; [done|]. rewrite append_cons. cbn [allChars].
  by rewrite IH, andb_assoc.
Qed.

Lemma allChars_weaken (p q : ascii -> bool) (s : string) :
  (forall c, p c = true -> q c = true) -> allChars p s = true -> allChars q s = true.
Proof.
  intros Hpq. induction s as [|c s IH]; [done|]. cbn [allChars].
  intros [Hc Hs]%andb_prop. by rewrite (Hpq c Hc), IH.
Qed.

Lemma allDigits_allChars (s : string) : allDigits s = allChars Regex.isDigit s.
Proof. induction s as [|c s IH]; [done|]. cbn [allDigits allChars]. by rewrite IH. Qed.

Lemma numChar_partChar (c : ascii) : numChar c = true -> partChar c = true.
Proof.
  destruct c as [[] [] [] [] [] [] [] []]; vm_compute; intros H; (done || discriminate H).
Qed.

Lemma digit_numChar (c : ascii) : Regex.isDigit c = true -> numChar c = true.
Proof. unfold numChar. by intros ->. Qed.

Lemma numChars_digits (s : string) : allDigits s = true -> allChars numChar s = true.
Proof. rewrite allDigits_allChars. apply allChars_weaken, digit_numChar. Qed.

Lemma allChars_substring (p : ascii -> bool) (s : string) (i n : nat) :
  allChars p s = true -> allChars p (String.substring i n s) = true.
Proof.
  revert i n. induction s as [|c s IH]; intros i n Hs.
  - by destruct i, n.
  - cbn [allChars] in Hs. apply andb_prop in Hs as [Hc Hs].
    destruct i as [|i]; destruct n as [|n]; cbn [String.substring allChars]; try done.
    + by rewrite Hc, IH.
    + by apply IH.
    + by apply IH.
Qed.

Lemma numChars_render (d : N) (e10 : Z) : allChars numChar (render d e10) = true.
Proof.
  unfold render. cbv zeta.
  pose proof (numChars_digits _ (allDigits_decimalString d)) as Hds.
  assert (Hz : forall j, allChars numChar (zeros j) = true).
  { intros j. apply numChars_digits, allDigits_zeros. }
  assert (He : allChars numChar
    ((if 0 <=? e10 + Z.of_nat (String.length (decimalString d)) - 1 then "e+" else "e-")
     +:+ decimalString (Z.to_N (Z.abs (e10 + Z.of_nat (String.length (decimalString d)) - 1))))
    = true).
  { rewrite allChars_app, (numChars_digits _ (allDigits_decimalString _)).
    by destruct (0 <=? _). }
  unfold substring.
  repeat case_match; rewrite ?allChars_app, ?He, ?Hz, ?Hds, ?allChars_substring; done.
Qed.

(** *** Splitting a text into its parts *)

Lemma splitWhiteSpace_trimStart (s : string) :
  Colors.splitWhiteSpace (trimStart s) = Colors.splitWhiteSpace s.
Proof.
  induction s as [|c s IH]; [done|]. cbn [trimStart Colors.splitWhiteSpace].
  destruct (isWhiteSpace c) eqn:Hc; [done|]. cbn [Colors.splitWhiteSpace]. by rewrite Hc.
Qed.

Lemma trimEnd_head (s : string) (c : ascii) (t : string) :
  trimEnd s = String c t -> exists t', s = String c t'.
Proof.
  destruct s as [|c' s]; [done|]. cbn [trimEnd].
  destruct (trimEnd s); [destruct (isWhiteSpace c')|]; intros [= <- <-]; eauto.
Qed.

Lemma splitWhiteSpace_cons (c c' : ascii) (t : string) :
  Colors.splitWhiteSpace (String c (String c' t)) =
  if isWhiteSpace c then Colors.splitWhiteSpace (String c' t)
  else if isWhiteSpace c' then String c EmptyString :: Colors.splitWhiteSpace (String c' t)
  else match Colors.splitWhiteSpace (String c' t) with
       | w :: ws => String c w :: ws
       | [] => [String c EmptyString]
       end.
Proof. reflexivity. Qed.

Lemma splitWhiteSpace_trimEnd (s : string) :
  Colors.splitWhiteSpace (trimEnd s) = Colors.splitWhiteSpace s.
Proof.
  induction s as [|c s IH]; [done|]. cbn [trimEnd].
  destruct (trimEnd s) as [|c' kept] eqn:E.
  - cbn [Colors.splitWhiteSpace] in IH.
    destruct s as [|c'' s'].
    + destruct (isWhiteSpace c) eqn:Hc; cbn [Colors.splitWhiteSpace]; by rewrite ?Hc.
    + rewrite splitWhiteSpace_cons, <- IH.
      destruct (isWhiteSpace c) eqn:Hc; [done|].
      cbn [Colors.splitWhiteSpace]. rewrite Hc. by destruct (isWhiteSpace c'').
  - destruct (trimEnd_head _ _ _ E) as [t' ->].
    rewrite !splitWhiteSpace_cons, IH. done.
Qed.

Lemma splitWhiteSpace_trim (s : string) :
  Colors.splitWhiteSpace (trim s) = Colors.splitWhiteSpace s.
Proof. unfold trim. by rewrite splitWhiteSpace_trimEnd, splitWhiteSpace_trimStart. Qed.

(** A part followed by nothing or by white space is the first part. *)
Lemma splitWhiteSpace_part (t rest : string) :
  t <> "" -> allChars nonWhite t = true ->
  match rest with String c _ => isWhiteSpace c = true | EmptyString => True end ->
  Colors.splitWhiteSpace (t +:+ rest) = t :: Colors.splitWhiteSpace rest.
Proof.
  induction t as [|c t IH]; [done|]. intros _ Ht Hrest.
  cbn [allChars] in Ht. apply andb_prop in Ht as [Hc Ht].
  unfold nonWhite in Hc. apply negb_true_iff in Hc.
  rewrite append_cons. cbn [Colors.splitWhiteSpace]. rewrite Hc.
  destruct t as [|c' t'].
  - rewrite append_nil_l. destruct rest as [|r rest']; [done|]. by rewrite Hrest.
  - rewrite append_cons. cbn [allChars] in Ht.
    pose proof Ht as Ht'. apply andb_prop in Ht' as [Hc' _].
    unfold nonWhite in Hc'. apply negb_true_iff in Hc'. rewrite Hc'.
    rewrite <- append_cons, IH by done. done.
Qed.

Lemma splitWhiteSpace_space (s : string) :
  Colors.splitWhiteSpace (String " " s) = Colors.splitWhiteSpace s.
Proof. done. Qed.

(** *** What [parseHSL] does to a written triplet *)

Lemma stripHslParens_parts (s : string) :
  allChars keptChar s = true ->
  Colors.stripHslParens 0 s = s.
Proof.
  induction s as [|c s IH]; [done|]. cbn [allChars].
  intros [[Hp Hh]%andb_prop Hs]%andb_prop. apply negb_true_iff in Hp, Hh.
  cbn [Colors.stripHslParens].
  assert (String.prefix "hsl(" (String c s) = false) as ->.
  { cbn [String.prefix]. destruct (ascii_dec "h" c) as [<-|]; [done|]. done. }
  by rewrite Hp, IH.
Qed.

Lemma blankCommaPercent_parts (s : string) :
  allChars partChar s = true -> Colors.blankCommaPercent s = s.
Proof.
  induction s as [|c s IH]; [done|]. cbn [allChars].
  intros [Hc Hs]%andb_prop. cbn [Colors.blankCommaPercent]. rewrite IH by done.
  unfold partChar in Hc. repeat (apply andb_prop in Hc as [Hc ?]).
  by repeat match goal with H : negb _ = true |- _ => apply negb_true_iff in H; rewrite H end.
Qed.

Lemma blankCommaPercent_app (s t : string) :
  Colors.blankCommaPercent (s +:+ t)
  = Colors.blankCommaPercent s +:+ Colors.blankCommaPercent t.
Proof.
  induction s as [|c s IH]; [done|]. rewrite append_cons.
  cbn [Colors.blankCommaPercent]. by rewrite IH, append_cons.
Qed.

Lemma trimEnd_last (s : string) (c : ascii) :
  isWhiteSpace c = false -> trimEnd (s +:+ String c "") = s +:+ String c "".
Proof.
  intros Hc. induction s as [|c' s IH].
  - rewrite append_nil_l. cbn [trimEnd]. by rewrite Hc.
  - rewrite append_cons. cbn [trimEnd]. rewrite IH.
    destruct s; [by rewrite append_nil_l | by rewrite append_cons].
Qed.

Lemma trimStart_head (c : ascii) (s : string) :
  isWhiteSpace c = false -> trimStart (String c s) = String c s.
Proof. intros Hc. cbn [trimStart]. by rewrite Hc. Qed.

Lemma partChar_nonWhite (c : ascii) : partChar c = true -> nonWhite c = true.
Proof. unfold partChar, nonWhite. by intros [[[[-> _]%andb_prop _]%andb_prop _ ]%andb_prop _]%andb_prop. Qed.

Lemma partChar_kept (c : ascii) :
  partChar c = true -> keptChar c = true.
Proof.
  unfold partChar, keptChar. intros [[[[_ _]%andb_prop _]%andb_prop ->]%andb_prop ->]%andb_prop. done.
Qed.

Lemma parts_of_triplet (a b c : string) :
  a <> "" -> b <> "" -> c <> "" ->
  allChars partChar a = true -> allChars partChar b = true -> allChars partChar c = true ->
  trim (writeTriplet a b c) = writeTriplet a b c /\
  Colors.splitWhiteSpace
    (trim (Colors.blankCommaPercent (Colors.stripHslParens 0 (writeTriplet a b c))))
  = [a; b; c].
Proof.
  intros Ha Hb Hc Pa Pb Pc. split.
  - unfold trim, writeTriplet. destruct a as [|a0 a']; [done|].
    rewrite append_cons, trimStart_head.
    2:{ cbn [allChars] in Pa. apply andb_prop in Pa as [Pa _].
        apply partChar_nonWhite in Pa. by apply negb_true_iff in Pa. }
    rewrite <- append_cons.
    rewrite <- !append_assoc. by apply trimEnd_last.
  - rewrite stripHslParens_parts.
    2:{ unfold writeTriplet. rewrite !allChars_app.
        rewrite (allChars_weaken partChar keptChar a partChar_kept),
          (allChars_weaken partChar keptChar b partChar_kept),
          (allChars_weaken partChar keptChar c partChar_kept) by done.
        reflexivity. }
    unfold writeTriplet. rewrite splitWhiteSpace_trim.
    rewrite !blankCommaPercent_app, (blankCommaPercent_parts a),
      (blankCommaPercent_parts b), (blankCommaPercent_parts c) by done.
    change (Colors.blankCommaPercent " ") with " ".
    change (Colors.blankCommaPercent "% ") with "  ".
    change (Colors.blankCommaPercent "%") with " ".
    rewrite splitWhiteSpace_part;
      [|done|by apply (allChars_weaken _ _ _ partChar_nonWhite)|exact eq_refl].
    rewrite append_cons, append_nil_l, splitWhiteSpace_space.
    rewrite splitWhiteSpace_part;
      [|done|by apply (allChars_weaken _ _ _ partChar_nonWhite)|exact eq_refl].
    rewrite !append_cons, append_nil_l, !splitWhiteSpace_space.
    rewrite splitWhiteSpace_part;
      [|done|by apply (allChars_weaken _ _ _ partChar_nonWhite)|exact eq_refl].
    reflexivity.
Qed.



(** *** Rounding a number that is a float already *)

Lemma shiftl_nat_Z (m : positive) (j : nat) :
  Zpos (Pos.shiftl_nat m j) = Zpos m * 2 ^ Z.of_nat j.
Proof.
  induction j as [|j IH]; [cbn; lia|].
  cbn [Pos.shiftl_nat nat_rect]. fold (Pos.shiftl_nat m j).
  rewrite Pos2Z.inj_xO, IH, Nat2Z.inj_succ, Z.pow_succ_r by lia. ring.
Qed.

Lemma digits2_shiftl_nat (m : positive) (j : nat) :
  Zpos (digits2_pos (Pos.shiftl_nat m j)) = Zpos (digits2_pos m) + Z.of_nat j.
Proof.
  induction j as [|j IH]; [cbn; lia|].
  cbn [Pos.shiftl_nat nat_rect digits2_pos]. fold (Pos.shiftl_nat m j). lia.
Qed.

Lemma iter_pos_nat {A : Type} (f : A -> A) (p : positive) (x : A) :
  SpecFloat.iter_pos f p x = Nat.iter (Pos.to_nat p) f x.
Proof.
  revert x. induction p as [p IH | p IH |]; intros x; cbn [SpecFloat.iter_pos].
  - rewrite !IH, Pos2Nat.inj_xI.
    replace (S (2 * Pos.to_nat p)) with (Pos.to_nat p + S (Pos.to_nat p))%nat by lia.
    by rewrite Nat.iter_add, Nat.iter_succ_r.
  - rewrite !IH, Pos2Nat.inj_xO.
    replace (2 * Pos.to_nat p)%nat with (Pos.to_nat p + Pos.to_nat p)%nat by lia.
    by rewrite Nat.iter_add.
  - done.
Qed.

Lemma shr_1_even (p : positive) :
  shr_1 {| shr_m := Zpos p~0; shr_r := false; shr_s := false |}
  = {| shr_m := Zpos p; shr_r := false; shr_s := false |}.
Proof. reflexivity. Qed.

Lemma iter_shr_1_shiftl (m : positive) (j : nat) :
  Nat.iter j shr_1 {| shr_m := Zpos (Pos.shiftl_nat m j); shr_r := false; shr_s := false |}
  = {| shr_m := Zpos m; shr_r := false; shr_s := false |}.
Proof.
  induction j as [|j IH]; [done|].
  rewrite Nat.iter_succ_r. cbn [Pos.shiftl_nat nat_rect]. fold (Pos.shiftl_nat m j).
  by rewrite shr_1_even.
Qed.

Lemma bounded_canonical (m : positive) (e : Z) :
  bounded prec emax m e = true ->
  fexp prec emax (Zpos (digits2_pos m) + e) = e /\ e <= emax - prec /\ -1074 <= e.
Proof.
  unfold bounded, canonical_mantissa. intros [Hc He]%andb_prop.
  apply Z.eqb_eq in Hc. apply Z.leb_le in He. repeat split; try done.
  rewrite <- Hc. unfold fexp, SpecFloat.emin, emax, prec. lia.
Qed.

Lemma binary_normalize_exact (m : positive) (e : Z) (j : nat) :
  bounded prec emax m e = true ->
  binary_normalize prec emax (Zpos (Pos.shiftl_nat m j)) (e - Z.of_nat j) false
  = S754_finite false m e.
Proof.
  intros Hb. destruct (bounded_canonical m e Hb) as (Hfexp & Hmax & _).
  cbn [binary_normalize]. unfold binary_round.
  rewrite digits2_shiftl_nat.
  replace (Zpos (digits2_pos m) + Z.of_nat j + (e - Z.of_nat j))
    with (Zpos (digits2_pos m) + e) by lia.
  rewrite Hfexp.
  assert (Halign : shl_align (Pos.shiftl_nat m j) (e - Z.of_nat j) e
                   = (Pos.shiftl_nat m j, e - Z.of_nat j)).
  { unfold shl_align. replace (e - (e - Z.of_nat j)) with (Z.of_nat j) by lia.
    by destruct (Z.of_nat j) eqn:E; [| |lia]. }
  rewrite Halign. unfold binary_round_aux.
  assert (Hshr : shr_fexp prec emax (Zpos (Pos.shiftl_nat m j)) (e - Z.of_nat j) loc_Exact
                 = ({| shr_m := Zpos m; shr_r := false; shr_s := false |}, e)).
  { unfold shr_fexp. cbn [Zdigits2 shr_record_of_loc]. rewrite digits2_shiftl_nat.
    replace (Zpos (digits2_pos m) + Z.of_nat j + (e - Z.of_nat j))
      with (Zpos (digits2_pos m) + e) by lia.
    rewrite Hfexp. replace (e - (e - Z.of_nat j)) with (Z.of_nat j) by lia.
    unfold shr. destruct (Z.of_nat j) as [|p|p] eqn:E; [| |lia].
    - assert (j = 0%nat) as -> by lia. cbn [Pos.shiftl_nat nat_rect]. f_equal. lia.
    - rewrite iter_pos_nat. replace (Pos.to_nat p) with j by lia.
      rewrite iter_shr_1_shiftl. f_equal. lia. }
  rewrite Hshr. cbn [shr_m loc_of_shr_record round_nearest_even].
  assert (Hshr2 : shr_fexp prec emax (Zpos m) e loc_Exact
                  = ({| shr_m := Zpos m; shr_r := false; shr_s := false |}, e)).
  { unfold shr_fexp. cbn [Zdigits2 shr_record_of_loc]. rewrite Hfexp, Z.sub_diag. done. }
  rewrite Hshr2. cbn [shr_m]. apply Z.leb_le in Hmax. by rewrite Hmax.
Qed.

(** A fraction whose value is the float [m * 2^e] rounds to it. *)
Lemma roundRational_exact (p q m : positive) (e : Z) :
  bounded prec emax m e = true ->
  Zpos p * 2 ^ 1080 = Zpos q * (Zpos m * 2 ^ (e + 1080)) ->
  roundRational false p q = S754_finite false m e.
Proof.
  intros Hb Hval. destruct (bounded_canonical m e Hb) as (_ & _ & Hmin).
  unfold roundRational. rewrite Z.shiftl_mul_pow2 by lia.
  destruct (Z.div_eucl (Zpos p * 2 ^ 1080) (Zpos q)) as [n r] eqn:E.
  assert (Hn : n = Zpos m * 2 ^ (e + 1080)).
  { change n with (fst (n, r)). rewrite <- E. change (fst (Z.div_eucl ?a ?b)) with (a / b).
    rewrite Hval, Z.mul_comm, Z.div_mul by lia. done. }
  assert (Hr : r = 0).
  { change r with (snd (n, r)). rewrite <- E. change (snd (Z.div_eucl ?a ?b)) with (a mod b).
    rewrite Hval, Z.mul_comm. apply Z.mod_mul. lia. }
  subst n r. cbn [Z.eqb].
  replace (2 * (Zpos m * 2 ^ (e + 1080)) + 0)
    with (Zpos (Pos.shiftl_nat m (Z.to_nat (e + 1081)))).
  2:{ rewrite shiftl_nat_Z, Z2Nat.id by lia.
      replace (e + 1081) with (Z.succ (e + 1080)) by lia. rewrite Z.pow_succ_r by lia. ring. }
  replace (-1081) with (e - Z.of_nat (Z.to_nat (e + 1081))) by lia.
  by apply binary_normalize_exact.
Qed.



Lemma SFsame_eq (x y : spec_float) : SFsame x y = true -> x = y.
Proof.
  destruct x, y; cbn [SFsame]; try done.
  - by intros ->%Bool.eqb_prop.
  - by intros ->%Bool.eqb_prop.
  - intros [[->%Bool.eqb_prop ->%Pos.eqb_eq]%andb_prop ->%Z.eqb_eq]%andb_prop. done.
Qed.

Lemma exact_readsBack (m : positive) (e : Z) :
  bounded prec emax m e = true ->
  decimalToSF false (exactDigits m e) (exactExp e) = S754_finite false m e.
Proof.
  intros Hb. destruct (bounded_canonical m e Hb) as (_ & _ & Hmin).
  unfold exactDigits, exactExp, num. destruct (0 <=? e) eqn:He.
  - apply Z.leb_le in He.
    assert (Hpos : 0 < Zpos m * 2 ^ e) by (apply Z.mul_pos_pos; [lia | by apply Z.pow_pos_nonneg]).
    destruct (Z.to_N (Zpos m * 2 ^ e)) as [|d] eqn:Ed; [lia|].
    unfold decimalToSF. change (0 <=? 0) with true. cbv iota.
    apply roundRational_exact; [done|].
    change (Z.to_pos (10 ^ 0)) with 1%positive.
    assert (Zpos d = Zpos m * 2 ^ e) as Hd by lia.
    rewrite Pos.mul_1_r, Hd, Z.pow_add_r by lia. ring.
  - apply Z.leb_gt in He.
    assert (Hpos : 0 < Zpos m * 5 ^ (- e)) by (apply Z.mul_pos_pos; [lia | apply Z.pow_pos_nonneg; lia]).
    destruct (Z.to_N (Zpos m * 5 ^ (- e))) as [|d] eqn:Ed; [lia|].
    unfold decimalToSF. rewrite (proj2 (Z.leb_gt 0 e)) by lia.
    apply roundRational_exact; [done|].
    assert (Zpos d = Zpos m * 5 ^ (- e)) as Hd by lia.
    assert (H10 : 0 < 10 ^ (- e)) by (apply Z.pow_pos_nonneg; lia).
    rewrite Z2Pos.id, Hd by done.
    replace 1080 with (- e + (e + 1080)) at 1 by lia.
    rewrite Z.pow_add_r by lia.
    change 10 with (2 * 5). rewrite Z.pow_mul_l. ring.
Qed.

Lemma candidate_readsBack (m : positive) (e k : Z) (c : N * Z) :
  candidate m e k = Some c -> readsBack m e c = true.
Proof.
  unfold candidate. cbv zeta.
  set (cLo := stripZeros (Z.to_nat k) _ _). set (cHi := stripZeros (S (Z.to_nat k)) _ _).
  destruct (readsBack m e cLo) eqn:Hlo; destruct (readsBack m e cHi) eqn:Hhi;
    try destruct (lowerIsCloser _ _ _ _); intros [= <-]; done.
Qed.

Lemma search_readsBack (m : positive) (e : Z) (fuel : nat) (k : Z) (c : N * Z) :
  search m e fuel k = Some c -> readsBack m e c = true.
Proof.
  revert k. induction fuel as [|fuel IH]; intros k; [done|].
  cbn [search]. destruct (candidate m e k) as [c'|] eqn:E.
  - intros [= <-]. by apply candidate_readsBack in E.
  - apply IH.
Qed.

Lemma shortest_readsBack (m : positive) (e : Z) :
  bounded prec emax m e = true ->
  decimalToSF false (shortestDecimal m e).1 (shortestDecimal m e).2 = S754_finite false m e.
Proof.
  intros Hb. unfold shortestDecimal.
  destruct (search m e _ 1) as [c|] eqn:E.
  - apply search_readsBack in E. by apply SFsame_eq in E.
  - by apply exact_readsBack.
Qed.

Lemma decimalToSF_shift (neg : bool) (d : N) (e10 : Z) :
  (0 < d)%N -> 0 <= e10 ->
  decimalToSF neg (d * 10 ^ Z.to_N e10)%N 0 = decimalToSF neg d e10.
Proof.
  intros Hd He. destruct d as [|p]; [lia|].
  assert (H10 : 0 < 10 ^ e10) by (by apply Z.pow_pos_nonneg).
  assert (Hmul : (Npos p * 10 ^ Z.to_N e10)%N = Npos (p * Z.to_pos (10 ^ e10))).
  { apply N2Z.inj. rewrite N2Z.inj_mul, N2Z.inj_pow, Z2N.id by done.
    cbn [Z.of_N]. rewrite Pos2Z.inj_mul, Z2Pos.id by done. done. }
  rewrite Hmul. unfold decimalToSF. change (0 <=? 0) with true.
  rewrite (proj2 (Z.leb_le 0 e10)) by done. cbv iota.
  change (Z.to_pos (10 ^ 0)) with 1%positive. by rewrite Pos.mul_1_r.
Qed.

(** Reading a text that starts with a digit. *)
Lemma parseFloat_digit_head (c : ascii) (t : string) :
  Regex.isDigit c = true ->
  parseFloat (String c t) =
  match readUnsigned (String c t) with
  | Some (digits, e10) => SF2Prim (decimalToSF false digits e10)
  | None => nan
  end.
Proof.
  intros Hc. unfold parseFloat.
  destruct c as [[] [] [] [] [] [] [] []]; vm_compute in Hc; try discriminate Hc; reflexivity.
Qed.

(** The text of a float that is +0 or finite and positive reads back as it. *)
Lemma parseFloat_toString (x : float) :
  (Prim2SF x = S754_zero false \/ exists m e, Prim2SF x = S754_finite false m e) ->
  parseFloat (toString x) = x.
Proof.
  intros [Hz | (m & e & Hf)]; unfold toString.
  - rewrite Hz. cbn [renderSF]. rewrite <- (SF2Prim_Prim2SF x), Hz. vm_compute. reflexivity.
  - pose proof (Prim2SF_valid x) as Hv. rewrite Hf in Hv. cbn [valid_binary] in Hv.
    rewrite Hf. cbn [renderSF]. rewrite append_nil_l.
    pose proof (shortest_readsBack m e Hv) as Hback.
    destruct (shortestDecimal m e) as [d e10]. cbn [fst snd] in *.
    assert (Hd : (0 < d)%N).
    { destruct d; [|lia]. cbn [decimalToSF] in Hback. discriminate. }
    destruct (render_head d e10) as (c & t & Hr & Hc).
    rewrite Hr, parseFloat_digit_head, <- Hr by done.
    destruct (readUnsigned_render d e10 Hd) as [-> | [He ->]].
    + by rewrite Hback, <- Hf, SF2Prim_Prim2SF.
    + by rewrite decimalToSF_shift, Hback, <- Hf, SF2Prim_Prim2SF.
Qed.


(** *** Clamped components *)

Lemma Math_min_pair (bound x : float) :
  PrimFloat.is_nan bound = false -> PrimFloat.is_zero bound = false ->
  (bound <? infinity)%float = true -> PrimFloat.is_nan x = false ->
  Math_min [bound; x] = if (x <? bound)%float then x else bound.
Proof.
  intros Hn Hz Hi Hx. unfold Math_min. cbn [existsb fold_left].
  rewrite Hn, Hx. cbn [orb].
  replace (isPositiveZero infinity) with false by (vm_compute; reflexivity).
  rewrite andb_false_r, Hi.
  unfold isPositiveZero at 1. rewrite Hz. cbn [andb]. by rewrite andb_false_r.
Qed.

Lemma Math_max_pair (x : float) :
  PrimFloat.is_nan x = false ->
  Math_max [0%float; x] = if (0 <? x)%float then x else 0%float.
Proof.
  intros Hx. unfold Math_max. cbn [existsb fold_left].
  replace (PrimFloat.is_nan 0) with false by (vm_compute; reflexivity).
  rewrite Hx. cbn [orb].
  replace (isNegativeZero neg_infinity) with false by (vm_compute; reflexivity).
  rewrite andb_false_r.
  replace (neg_infinity <? 0)%float with true by (vm_compute; reflexivity).
  replace (isNegativeZero 0) with false by (vm_compute; reflexivity).
  by rewrite andb_false_r.
Qed.

Lemma ltb_zero_positive (x : float) :
  (0 <? x)%float = true ->
  Prim2SF x = S754_infinity false \/ exists m e, Prim2SF x = S754_finite false m e.
Proof.
  rewrite FloatAxioms.ltb_spec. replace (Prim2SF 0) with (S754_zero false) by (vm_compute; reflexivity).
  destruct (Prim2SF x) as [s | s | | s m e]; try destruct s; cbn; try done; eauto.
Qed.

Lemma ltb_not_infinity (x y : float) :
  (x <? y)%float = true -> Prim2SF x <> S754_infinity false.
Proof.
  rewrite FloatAxioms.ltb_spec. intros H E. rewrite E in H.
  destruct (Prim2SF y) as [s | s | | s m e]; try destruct s; cbn in H; done.
Qed.

Lemma ltb_positive_not_zero (x : float) :
  (0 <? x)%float = true -> PrimFloat.is_zero x = false /\ PrimFloat.is_nan x = false.
Proof.
  intros H. unfold PrimFloat.is_zero, PrimFloat.is_nan.
  rewrite !FloatAxioms.eqb_spec. replace (Prim2SF 0) with (S754_zero false) by (vm_compute; reflexivity).
  destruct (ltb_zero_positive x H) as [-> | (m & e & ->)]; cbn; [done|].
  unfold SFeqb. cbn [SFcompare]. rewrite Z.compare_refl, Pos.compare_cont_refl. done.
Qed.

Lemma stable_constant (bound c : float) :
  match Prim2SF c with S754_zero false | S754_finite false _ _ => true | _ => false end = true ->
  PrimFloat.Leibniz.eqb (orZero c) c = true ->
  PrimFloat.Leibniz.eqb (Math_max [0%float; Math_min [bound; c]]) c = true ->
  Stable bound c.
Proof.
  intros Hsf Ho Hc. repeat split.
  - unfold finiteNonNegative. destruct (Prim2SF c) as [[]|[]| |[] m e]; try done; eauto.
  - by apply FloatAxioms.Leibniz.eqb_spec.
  - by apply FloatAxioms.Leibniz.eqb_spec.
Qed.

Lemma clamp_stable (bound x : float) :
  goodBound bound = true ->
  Stable bound (Math_max [0%float; Math_min [bound; orZero x]]).
Proof.
  unfold goodBound.
  intros [[[[[Hn Hz]%andb_prop Hi]%andb_prop Hp]%andb_prop Hb]%andb_prop Hf]%andb_prop.
  apply negb_true_iff in Hn, Hz, Hb.
  assert (Hzero : Stable bound 0%float).
  { repeat split.
    - by left; vm_compute.
    - rewrite Math_min_pair by (done || by vm_compute).
      rewrite Hp. rewrite Math_max_pair by (by vm_compute). by vm_compute. }
  assert (Hbound : Stable bound bound).
  { repeat split.
    - right. destruct (Prim2SF bound) as [[]|[]| |[] m e]; try done; eauto.
    - unfold orZero. by rewrite Hn, Hz.
    - rewrite Math_min_pair, Hb, Math_max_pair, Hp by done. done. }
  assert (Hclamp0 : Math_max [0%float; Math_min [bound; 0%float]] = 0%float).
  { apply Hzero. }
  unfold orZero. destruct (PrimFloat.is_nan x || PrimFloat.is_zero x) eqn:Hx.
  { by rewrite Hclamp0. }
  apply orb_false_iff in Hx as [Hxn Hxz].
  rewrite Math_min_pair by done.
  destruct (x <? bound)%float eqn:Hlt.
  - rewrite Math_max_pair by done. destruct (0 <? x)%float eqn:Hpos; [|done].
    repeat split.
    + destruct (ltb_zero_positive x Hpos) as [E | E]; [|by right].
      by apply ltb_not_infinity in Hlt.
    + unfold orZero. by rewrite Hxn, Hxz.
    + rewrite Math_min_pair, Hlt, Math_max_pair, Hpos by done. done.
  - rewrite Math_max_pair, Hp by done. done.
Qed.

Lemma goodBound_360 : goodBound 360 = true.
Proof. vm_compute. reflexivity. Qed.

Lemma goodBound_100 : goodBound 100 = true.
Proof. vm_compute. reflexivity. Qed.

(** The text of a stable component: not empty, of characters that stay in one part. *)
Lemma toString_part (x : float) :
  finiteNonNegative x -> toString x <> "" /\ allChars partChar (toString x) = true.
Proof.
  intros [Hz | (m & e & Hf)]; unfold toString.
  - rewrite Hz. by vm_compute.
  - rewrite Hf. cbn [renderSF]. rewrite append_nil_l. split.
    + destruct (render_head (shortestDecimal m e).1 (shortestDecimal m e).2) as (c & t & -> & _).
      done.
    + apply (allChars_weaken numChar); [apply numChar_partChar | apply numChars_render].
Qed.

(** What is written for stable components is read back as written. *)
Lemma parseHSL_formatHSL (hsl : Colors.HSLColor) :
  Stable 360 (Colors.h hsl) -> Stable 100 (Colors.s hsl) -> Stable 100 (Colors.l hsl) ->
  trim (Colors.formatHSL hsl false) = Colors.formatHSL hsl false /\
  Colors.parseHSL (Colors.formatHSL hsl false) = Some hsl.
Proof.
  intros (Fh & Oh & Ch) (Fs & Os & Cs) (Fl & Ol & Cl).
  destruct (toString_part _ Fh) as [Nh Ph].
  destruct (toString_part _ Fs) as [Ns Ps].
  destruct (toString_part _ Fl) as [Nl Pl].
  destruct (parts_of_triplet _ _ _ Nh Ns Nl Ph Ps Pl) as [Htrim Hparts].
  unfold Colors.formatHSL. fold (writeTriplet (toString (Colors.h hsl))
    (toString (Colors.s hsl)) (toString (Colors.l hsl))).
  split; [done|]. unfold Colors.parseHSL. rewrite Hparts.
  rewrite !parseFloat_toString by done. rewrite Oh, Os, Ol, Ch, Cs, Cl. by destruct hsl.
Qed.

Lemma parseHSL_stable (str : string) (hsl : Colors.HSLColor) :
  Colors.parseHSL str = Some hsl ->
  Stable 360 (Colors.h hsl) /\ Stable 100 (Colors.s hsl) /\ Stable 100 (Colors.l hsl).
Proof.
  unfold Colors.parseHSL. destruct (Colors.splitWhiteSpace _) as [|p0 [|p1 [|p2 [|]]]]; try done.
  intros [= <-]. cbn [Colors.h Colors.s Colors.l].
  repeat split; apply clamp_stable; (apply goodBound_360 || apply goodBound_100).
Qed.


(** *** The tables, by computation *)

Lemma channels_not_nan : forallb (fun x => negb (PrimFloat.is_nan x)) channels = true.
Proof. vm_compute. reflexivity. Qed.

Lemma channels_finite : forallb isFinite channels = true.
Proof. vm_compute. reflexivity. Qed.

Lemma unitChannels_eq : map (fun c => (c / 255)%float) channels = unitChannels.
Proof. vm_compute. reflexivity. Qed.

Lemma unitChannels_plain : forallb plain unitChannels = true.
Proof. vm_compute. reflexivity. Qed.

Lemma hexPairs_read : hexPairsRead hexChars channels = true.
Proof. vm_compute. reflexivity. Qed.

Lemma smallInts_360 : smallIntsWritten 360 360 = true.
Proof. vm_compute. reflexivity. Qed.

Lemma smallInts_100 : smallIntsWritten 100 100 = true.
Proof. vm_compute. reflexivity. Qed.

Lemma shades_rounded : shadesRounded unitChannels = true.
Proof. vm_compute. reflexivity. Qed.

Lemma hues_rounded : huesRounded unitChannels = true.
Proof. vm_compute. reflexivity. Qed.


(** *** The extremes, the rounding and the conversion of the channels *)

Lemma plain_facts (x : float) :
  plain x = true ->
  PrimFloat.is_nan x = false /\ isNegativeZero x = false /\
  (neg_infinity <? x)%float = true /\ (x <? infinity)%float = true /\
  (x <? x)%float = false.
Proof.
  unfold plain.
  intros [[[[H1 H2]%andb_prop H3]%andb_prop H4]%andb_prop H5]%andb_prop.
  apply negb_true_iff in H1, H2, H5. done.
Qed.

Lemma Math_max_three (a b c : float) :
  plain a = true -> plain b = true -> plain c = true ->
  Math_max [a; b; c] = higher (higher a b) c.
Proof.
  intros (Ha1 & Ha2 & Ha3 & _)%plain_facts (Hb1 & Hb2 & _)%plain_facts
         (Hc1 & _)%plain_facts.
  unfold Math_max. cbn [existsb fold_left]. rewrite Ha1, Hb1, Hc1. cbn [orb].
  replace (isNegativeZero neg_infinity) with false by (vm_compute; reflexivity).
  rewrite andb_false_r, Ha3, Ha2, andb_false_r.
  fold (higher a b).
  assert (isNegativeZero (higher a b) = false) as ->.
  { unfold higher. by destruct (a <? b)%float. }
  by rewrite andb_false_r.
Qed.

Lemma Math_min_three (a b c : float) :
  plain a = true -> plain b = true -> plain c = true ->
  Math_min [a; b; c] = lower (lower a b) c.
Proof.
  intros (Ha1 & Ha2 & _ & Ha4 & _)%plain_facts (Hb1 & Hb2 & _)%plain_facts
         (Hc1 & Hc2 & _)%plain_facts.
  unfold Math_min. cbn [existsb fold_left]. rewrite Ha1, Hb1, Hc1. cbn [orb].
  rewrite Ha2, Hb2, Hc2. cbn [andb]. by rewrite Ha4.
Qed.

Lemma extremes (a b c : float) :
  (a <? a)%float = false -> (b <? b)%float = false -> (c <? c)%float = false ->
  (higher (higher a b) c = a \/ higher (higher a b) c = b \/ higher (higher a b) c = c) /\
  (lower (lower a b) c = a \/ lower (lower a b) c = b \/ lower (lower a b) c = c) /\
  (higher (higher a b) c <? lower (lower a b) c)%float = false.
Proof.
  intros Ha Hb Hc. unfold higher, lower.
  destruct (a <? b)%float eqn:Hab; destruct (b <? a)%float eqn:Hba.
  - destruct (b <? c)%float eqn:Hbc; destruct (c <? b)%float eqn:Hcb; auto.
  - destruct (b <? c)%float eqn:Hbc; destruct (c <? a)%float eqn:Hca; auto.
  - destruct (a <? c)%float eqn:Hac; destruct (c <? b)%float eqn:Hcb; auto.
  - destruct (a <? c)%float eqn:Hac; destruct (c <? a)%float eqn:Hca; auto.
Qed.

Lemma rgbToHsl_unfold (r g b : float) :
  plain (r / 255) = true -> plain (g / 255) = true -> plain (b / 255) = true ->
  Colors.rgbToHsl {| Colors.r := r; Colors.g := g; Colors.b := b |}
  = let max := higher (higher (r / 255) (g / 255)) (b / 255) in
    let min := lower (lower (r / 255) (g / 255)) (b / 255) in
    {| Colors.h := Math_round (hueOf max min (r / 255) (g / 255) (b / 255) * 360);
       Colors.s := Math_round (saturationOf max min * 100);
       Colors.l := Math_round (lightnessOf max min * 100) |}.
Proof.
  intros Hr Hg Hb. unfold Colors.rgbToHsl. cbn [Colors.r Colors.g Colors.b].
  rewrite Math_max_three, Math_min_three by done.
  cbv zeta. unfold hueOf, saturationOf, lightnessOf.
  by destruct (negb _).
Qed.

Lemma Math_round_positive (x : float) :
  (0 <? x)%float = true -> (x <? 4503599627370496)%float = true ->
  Math_round x = of_uint63 (roundInt x).
Proof.
  intros Hpos Hlt.
  destruct (ltb_positive_not_zero x Hpos) as [Hz Hn].
  destruct (ltb_zero_positive x Hpos) as [E | (m & e & E)];
    [by apply ltb_not_infinity in Hlt|].
  assert (Habs : PrimFloat.abs x = x).
  { apply Prim2SF_inj. by rewrite abs_spec, E. }
  unfold Math_round, PrimFloat.is_infinity, PrimFloat.get_sign.
  rewrite Hn, Habs, Hz. cbn [orb].
  rewrite FloatAxioms.eqb_spec, FloatAxioms.leb_spec, FloatAxioms.ltb_spec.
  rewrite FloatAxioms.ltb_spec in Hlt. rewrite E in *.
  replace (Prim2SF infinity) with (S754_infinity false) by (vm_compute; reflexivity).
  replace (Prim2SF zero) with (S754_zero false) by (vm_compute; reflexivity).
  destruct (Prim2SF 4503599627370496) as [s|s| |s p q] eqn:Ebig;
    try (vm_compute in Ebig; discriminate Ebig).
  assert (s = false) as -> by (vm_compute in Ebig; congruence).
  assert (Hge : SFleb (S754_finite false p q) (S754_finite false m e) = false).
  { revert Hlt. unfold SFltb, SFleb. cbn [SFcompare].
    rewrite (Z.compare_antisym e q).
    destruct (e ?= q); cbn [CompOpp]; try done.
    pose proof (Pos.compare_cont_antisym m p Eq) as A. cbn [CompOpp] in A.
    rewrite <- A. by destruct (Pos.compare_cont Eq m p). }
  rewrite Hge. cbn. reflexivity.
Qed.

Lemma roundsWithin_spec (bound : int) (x : float) :
  roundsWithin bound x = true ->
  exists k : nat, (k <= Z.to_nat (Uint63.to_Z bound))%nat /\ Math_round x = smallInt k.
Proof.
  unfold roundsWithin. destruct (0 <? x)%float eqn:Hpos.
  - intros [Hlt Hle]%andb_prop. rewrite (Math_round_positive x Hpos Hlt).
    apply Uint63.leb_spec in Hle.
    exists (Z.to_nat (Uint63.to_Z (roundInt x))). split.
    + apply Z2Nat.inj_le; [apply Uint63.to_Z_bounded|apply Uint63.to_Z_bounded|done].
    + unfold smallInt. rewrite Z2Nat.id by apply Uint63.to_Z_bounded.
      by rewrite Uint63.of_to_Z.
  - intros ->%FloatAxioms.Leibniz.eqb_spec. exists 0%nat. split; [lia|].
    vm_compute. reflexivity.
Qed.

Lemma huesRounded_spec (values : list float) (r g b : float) :
  huesRounded values = true -> In r values -> In g values -> In b values ->
  roundsWithin 360
    (hueOf (higher (higher r g) b) (lower (lower r g) b) r g b * 360)%float = true.
Proof.
  unfold huesRounded. intros H Hr Hg Hb.
  rewrite forallb_forall in H. specialize (H r Hr). cbv beta in H.
  rewrite forallb_forall in H. specialize (H g Hg). cbv beta zeta in H.
  rewrite forallb_forall in H. exact (H b Hb).
Qed.

Lemma shadesRounded_spec (values : list float) (mx mn : float) :
  shadesRounded values = true -> In mx values -> In mn values ->
  (mx <? mn)%float = false ->
  roundsWithin 100 (saturationOf mx mn * 100)%float = true /\
  roundsWithin 100 (lightnessOf mx mn * 100)%float = true.
Proof.
  unfold shadesRounded. intros H Hmx Hmn Hle.
  rewrite forallb_forall in H. specialize (H mx Hmx). cbv beta in H.
  rewrite forallb_forall in H. specialize (H mn Hmn). cbv beta in H.
  rewrite Hle in H. cbn [orb] in H. by apply andb_prop in H.
Qed.

Lemma smallInt_written (bound : float) (n k : nat) :
  smallIntsWritten bound n = true -> (k <= n)%nat ->
  Stable bound (smallInt k) /\ toString (smallInt k) = decimalString (N.of_nat k).
Proof.
  unfold smallIntsWritten. rewrite forallb_forall. intros H Hk.
  specialize (H k). destruct (andb_prop _ _ (H ltac:(apply in_seq; lia))) as [Hs Hw].
  split; [|by apply String.eqb_eq].
  unfold stableb in Hs. apply andb_prop in Hs as [Hs H3]. apply andb_prop in Hs as [H1 H2].
  by apply stable_constant.
Qed.

Lemma unit_channel (c : float) : In c channels -> In (c / 255)%float unitChannels.
Proof. intros Hc. rewrite <- unitChannels_eq. by apply (in_map (fun c => (c / 255)%float)). Qed.

Lemma unitChannel_plain (x : float) : In x unitChannels -> plain x = true.
Proof. intros Hx. pose proof unitChannels_plain as H. rewrite forallb_forall in H. by apply H. Qed.

(** [rgbToHsl] of three channels from 0 to 255: three integers in range. *)
Lemma rgbToHsl_channels (r g b : float) :
  In r channels -> In g channels -> In b channels ->
  exists H S L : nat,
    (H <= 360)%nat /\ (S <= 100)%nat /\ (L <= 100)%nat /\
    Colors.rgbToHsl {| Colors.r := r; Colors.g := g; Colors.b := b |}
    = {| Colors.h := smallInt H; Colors.s := smallInt S; Colors.l := smallInt L |}.
Proof.
  intros Hr%unit_channel Hg%unit_channel Hb%unit_channel.
  pose proof (unitChannel_plain _ Hr) as Pr.
  pose proof (unitChannel_plain _ Hg) as Pg.
  pose proof (unitChannel_plain _ Hb) as Pb.
  rewrite (rgbToHsl_unfold r g b Pr Pg Pb). cbv zeta.
  pose proof (huesRounded_spec _ _ _ _ hues_rounded Hr Hg Hb) as HH.
  destruct (extremes (r / 255) (g / 255) (b / 255)) as (Hmx & Hmn & Hle);
    [apply (plain_facts _ Pr)|apply (plain_facts _ Pg)|apply (plain_facts _ Pb)|].
  assert (Imx : In (higher (higher (r / 255) (g / 255)) (b / 255)) unitChannels).
  { by destruct Hmx as [-> | [-> | ->]]. }
  assert (Imn : In (lower (lower (r / 255) (g / 255)) (b / 255)) unitChannels).
  { by destruct Hmn as [-> | [-> | ->]]. }
  destruct (shadesRounded_spec _ _ _ shades_rounded Imx Imn Hle) as [HS HL].
  apply roundsWithin_spec in HH as (H & HH & ->).
  apply roundsWithin_spec in HS as (S & HS & ->).
  apply roundsWithin_spec in HL as (L & HL & ->).
  exists H, S, L. split; [exact HH|]. split; [exact HS|]. split; [exact HL|]. reflexivity.
Qed.


(** *** Hex colors *)

Lemma hexDigit_facts (c : ascii) :
  Validation.isHexDigit c = true ->
  partChar c = true /\ Ascii.eqb c "#" = false /\ In c hexChars.
Proof.
  destruct c as [[] [] [] [] [] [] [] []]; vm_compute; intros H;
    try discriminate H; (split; [reflexivity|split; [reflexivity|tauto]]).
Qed.

Lemma removeFirstHash_hex (s : string) :
  allChars Validation.isHexDigit s = true -> Colors.removeFirstHash s = s.
Proof.
  induction s as [|c s IH]; [done|]. cbn [allChars Colors.removeFirstHash].
  intros [Hc Hs]%andb_prop. destruct (hexDigit_facts c Hc) as (_ & -> & _).
  by rewrite IH.
Qed.

Lemma removeFirstHash_hexDigits (str : string) :
  allChars Validation.isHexDigit (hexDigits str) = true ->
  Colors.removeFirstHash str = hexDigits str.
Proof.
  destruct str as [|c s]; [done|]. cbn [hexDigits Colors.removeFirstHash].
  destruct (Ascii.eqb c "#") eqn:Hc; [done|].
  intros H. apply removeFirstHash_hex in H. cbn [Colors.removeFirstHash] in H.
  by rewrite Hc in H.
Qed.

Lemma hexColor_parts (str : string) :
  hexColor str = true -> str <> "" /\ allChars partChar str = true.
Proof.
  unfold hexColor. intros [Hlen Hall]%andb_prop.
  assert (Hd : allChars partChar (hexDigits str) = true).
  { revert Hall. apply allChars_weaken. intros c Hc. apply (hexDigit_facts c Hc). }
  destruct str as [|c s]; [by vm_compute in Hlen|]. split; [done|].
  cbn [hexDigits] in Hd. destruct (Ascii.eqb c "#") eqn:Hc; [|done].
  apply Ascii.eqb_eq in Hc. subst c. cbn [allChars]. by rewrite Hd.
Qed.

(** A hex color is one part, so [parseHSL] does not read it. *)
Lemma parseHSL_hexColor (str : string) :
  hexColor str = true -> Colors.parseHSL str = None.
Proof.
  intros [Hne Hall]%hexColor_parts. unfold Colors.parseHSL.
  rewrite stripHslParens_parts by (revert Hall; apply allChars_weaken, partChar_kept).
  rewrite blankCommaPercent_parts by done.
  rewrite splitWhiteSpace_trim.
  rewrite <- (append_nil_r str).
  rewrite splitWhiteSpace_part; [done|done| |done].
  revert Hall. apply allChars_weaken, partChar_nonWhite.
Qed.

Lemma hexPairsRead_spec (digits : list ascii) (values : list float) (c1 c2 : ascii) :
  hexPairsRead digits values = true -> In c1 digits -> In c2 digits ->
  In (parseInt16 (String c1 (String c2 EmptyString))) values.
Proof.
  unfold hexPairsRead. intros H H1 H2.
  rewrite forallb_forall in H. specialize (H c1 H1). cbv beta in H.
  rewrite forallb_forall in H. specialize (H c2 H2). cbv beta in H.
  apply existsb_exists in H as (x & Hx & Heq).
  apply FloatAxioms.Leibniz.eqb_spec in Heq. by rewrite Heq.
Qed.

Lemma hexPair_channel (c1 c2 : ascii) :
  Validation.isHexDigit c1 = true -> Validation.isHexDigit c2 = true ->
  In (parseInt16 (String c1 (String c2 EmptyString))) channels.
Proof.
  intros (_ & _ & H1)%hexDigit_facts (_ & _ & H2)%hexDigit_facts.
  exact (hexPairsRead_spec _ _ c1 c2 hexPairs_read H1 H2).
Qed.

Lemma channel_not_nan (x : float) : In x channels -> PrimFloat.is_nan x = false.
Proof.
  intros Hx. pose proof channels_not_nan as H. rewrite forallb_forall in H.
  apply negb_true_iff, H, Hx.
Qed.

Lemma channel_finite (x : float) : In x channels -> isFinite x = true.
Proof.
  intros Hx. pose proof channels_finite as H. rewrite forallb_forall in H. by apply H.
Qed.

Lemma inGamut_channel (m : string) : inGamut m = true -> In (Number m) channels.
Proof.
  unfold inGamut. intros (x & Hx & Heq)%existsb_exists.
  apply FloatAxioms.Leibniz.eqb_spec in Heq. by rewrite Heq.
Qed.

(** [parseHex] reads a hex color as three channels from 0 to 255. *)
Lemma parseHex_hexColor (str : string) :
  hexColor str = true ->
  exists r g b, In r channels /\ In g channels /\ In b channels /\
    Colors.parseHex str = Some {| Colors.r := r; Colors.g := g; Colors.b := b |}.
Proof.
  unfold hexColor. intros [Hlen Hall]%andb_prop.
  unfold Colors.parseHex. rewrite (removeFirstHash_hexDigits _ Hall).
  destruct (hexDigits str) as [|c1 [|c2 [|c3 [|c4 [|c5 [|c6 [|c7 ?]]]]]]];
    try (by vm_compute in Hlen); cbn [allChars] in Hall.
  - apply andb_prop in Hall as [H1 Hall]. apply andb_prop in Hall as [H2 Hall].
    apply andb_prop in Hall as [H3 _].
    pose proof (hexPair_channel c1 c1 H1 H1) as Hr.
    pose proof (hexPair_channel c2 c2 H2 H2) as Hg.
    pose proof (hexPair_channel c3 c3 H3 H3) as Hb.
    eexists _, _, _. split; [exact Hr|]. split; [exact Hg|]. split; [exact Hb|].
    cbn [String.length Nat.eqb Colors.doubleChars negb String.substring].
    by rewrite (channel_not_nan _ Hr), (channel_not_nan _ Hg), (channel_not_nan _ Hb).
  - apply andb_prop in Hall as [H1 Hall]. apply andb_prop in Hall as [H2 Hall].
    apply andb_prop in Hall as [H3 Hall]. apply andb_prop in Hall as [H4 Hall].
    apply andb_prop in Hall as [H5 Hall]. apply andb_prop in Hall as [H6 _].
    pose proof (hexPair_channel c1 c2 H1 H2) as Hr.
    pose proof (hexPair_channel c3 c4 H3 H4) as Hg.
    pose proof (hexPair_channel c5 c6 H5 H6) as Hb.
    eexists _, _, _. split; [exact Hr|]. split; [exact Hg|]. split; [exact Hb|].
    cbn [String.length Nat.eqb Colors.doubleChars negb String.substring].
    by rewrite (channel_not_nan _ Hr), (channel_not_nan _ Hg), (channel_not_nan _ Hb).
Qed.

Section Normalizer.

Variable hasDocument : bool.
Variable computedColor : string -> option string.

Abbreviation normalize := (Provider.normalizeColorValueToHslTriplet hasDocument computedColor).

(** A triplet of stable components is a fixed point of the normalizer. *)
Lemma normalize_written (hsl : Colors.HSLColor) :
  Stable 360 (Colors.h hsl) -> Stable 100 (Colors.s hsl) -> Stable 100 (Colors.l hsl) ->
  normalize (Colors.formatHSL hsl false) = Colors.formatHSL hsl false.
Proof.
  intros Hh Hs Hl. destruct (parseHSL_formatHSL hsl Hh Hs Hl) as [Htrim Hparse].
  unfold Provider.normalizeColorValueToHslTriplet. cbv zeta. by rewrite Htrim, Hparse.
Qed.

Lemma normalize_parsed (value : string) (hsl : Colors.HSLColor) :
  Colors.parseHSL (trim value) = Some hsl -> normalize value = Colors.formatHSL hsl false.
Proof.
  intros H. unfold Provider.normalizeColorValueToHslTriplet. cbv zeta. by rewrite H.
Qed.

Lemma normalize_fromRgb (value : string) :
  fromRgb hasDocument computedColor value = true ->
  exists H S L : nat,
    (H <= 360)%nat /\ (S <= 100)%nat /\ (L <= 100)%nat /\
    normalize value
    = Colors.formatHSL
        {| Colors.h := smallInt H; Colors.s := smallInt S; Colors.l := smallInt L |} false.
Proof.
  unfold fromRgb, Provider.normalizeColorValueToHslTriplet. cbv zeta.
  destruct (Colors.parseHSL (trim value)) as [hsl|] eqn:Hparse; [done|].
  destruct (hexColor (trim value)) eqn:Hhex.
  - intros _. destruct (parseHex_hexColor _ Hhex) as (r & g & b & Hr & Hg & Hb & ->).
    destruct (rgbToHsl_channels r g b Hr Hg Hb) as (H & S & L & HH & HS & HL & ->).
    by exists H, S, L.
  - cbn [orb]. destruct (Colors.parseHex (trim value)) as [rgb|]; [done|].
    destruct hasDocument; [|done]. cbn [andb].
    destruct (startsWith (trim value) "var("); [done|]. cbn [negb andb].
    destruct (computedColor (trim value)) as [computed|]; [|done].
    destruct (Probe.matchRgb computed) as [[[m1 m2] m3]|]; [|done].
    intros [[H1 H2]%andb_prop H3]%andb_prop.
    apply inGamut_channel in H1, H2, H3.
    rewrite (channel_finite _ H1), (channel_finite _ H2), (channel_finite _ H3).
    cbn [andb].
    destruct (rgbToHsl_channels _ _ _ H1 H2 H3) as (H & S & L & HH & HS & HL & ->).
    by exists H, S, L.
Qed.

(** C8. The runtime normalizer is idempotent on its own output. For every
    input that it converts (a text that parseHSL reads, which covers hsl(),
    raw triplets and rgb() texts of three parts; a hex color; a text that the
    browser resolves to channels from 0 to 255), normalizing the result again
    gives the same result. In particular "#ff0000" gives "0 100% 50%", and
    "0 100% 50%" gives itself. *)
Theorem normalizer_is_idempotent (value : string) :
  (converts hasDocument computedColor value = true ->
   normalize (normalize value) = normalize value) /\
  normalize "#ff0000" = "0 100% 50%" /\
  normalize "0 100% 50%" = "0 100% 50%".
Proof.
  split; [|split; vm_compute; reflexivity].
  unfold converts. destruct (Colors.parseHSL (trim value)) as [hsl|] eqn:Hparse.
  - intros _. destruct (parseHSL_stable _ _ Hparse) as (Hh & Hs & Hl).
    rewrite (normalize_parsed _ _ Hparse). by apply normalize_written.
  - intros Hrgb. destruct (normalize_fromRgb value Hrgb) as (H & S & L & HH & HS & HL & ->).
    apply normalize_written; cbn [Colors.h Colors.s Colors.l].
    + apply (smallInt_written 360 360 H smallInts_360 HH).
    + apply (smallInt_written 100 100 S smallInts_100 HS).
    + apply (smallInt_written 100 100 L smallInts_100 HL).
Qed.

(** C9, as amended. Only the components that come from the RGB to
    HSL conversion are rounded. For a hex color, and for a text that the
    browser resolves to channels from 0 to 255, the result is "H S% L%" with
    integers H <= 360, S <= 100 and L <= 100. What parseHSL reads is written
    back as parsed and clamped, without any rounding. *)
Theorem rgb_conversion_gives_integer_triplet (value : string) :
  (fromRgb hasDocument computedColor value = true ->
   exists H S L : nat,
     (H <= 360)%nat /\ (S <= 100)%nat /\ (L <= 100)%nat /\
     normalize value = integerTriplet H S L) /\
  (forall hsl, Colors.parseHSL (trim value) = Some hsl ->
     normalize value = Colors.formatHSL hsl false).
Proof.
  split; [|apply normalize_parsed].
  intros Hrgb. destruct (normalize_fromRgb value Hrgb) as (H & S & L & HH & HS & HL & ->).
  exists H, S, L. split; [exact HH|]. split; [exact HS|]. split; [exact HL|].
  unfold Colors.formatHSL, integerTriplet, writeTriplet. cbn [Colors.h Colors.s Colors.l].
  rewrite (proj2 (smallInt_written 360 360 H smallInts_360 HH)).
  rewrite (proj2 (smallInt_written 100 100 S smallInts_100 HS)).
  by rewrite (proj2 (smallInt_written 100 100 L smallInts_100 HL)).
Qed.

End Normalizer.

Lemma normalizer_is_idempotent_witness :
  converts true SampleEnvironment.blackProbe " #60a5fa " = true /\
  SampleEnvironment.normalize (SampleEnvironment.normalize " #60a5fa ")
  = SampleEnvironment.normalize " #60a5fa ".
Proof.
  split; [vm_compute; reflexivity|].
  apply (normalizer_is_idempotent true SampleEnvironment.blackProbe " #60a5fa ").
  vm_compute. reflexivity.
Defined.

Lemma rgb_conversion_gives_integer_triplet_witness :
  fromRgb true SampleEnvironment.blackProbe "black" = true /\
  exists H S L : nat,
    (H <= 360)%nat /\ (S <= 100)%nat /\ (L <= 100)%nat /\
    SampleEnvironment.normalize "black" = integerTriplet H S L.
Proof.
  split; [vm_compute; reflexivity|].
  apply (rgb_conversion_gives_integer_triplet true SampleEnvironment.blackProbe "black").
  vm_compute. reflexivity.
Defined.

End NormalizerFacts.

(** C9, as stated, fails: an hsl() input with a fractional hue keeps it. *)
Lemma fractional_hue_is_kept :
  SampleEnvironment.normalize "hsl(210.5 40% 98%)" = "210.5 40% 98%".
Proof. vm_compute. reflexivity. Qed.
